(** * Annotation pipeline: confidence filter, agreement analysis, export

    A shallow embedding of [scripts/process_annotations.py].

    - A pandas [DataFrame] is the ordered list of its rows.
    - A Python [str] is the [string] of its UTF-8 bytes: equality is the
      same, and byte-wise lexicographic order is code-point order.
    - A [float64] cell is a [spec_float] (IEEE 754 without NaN payload);
      a missing score is read by pandas as NaN.
    - The columns [text], [label] and [annotator_id] hold strings, as the
      data model of the pipeline has them.
    - Files, the log and the console are fields of an explicit [World]
      threaded through a state-and-exception monad; the world also says
      at which paths a file cannot be opened for writing.
    - The table that the parser returns carries its header, so that the
      lookup of a column the input lacks raises as in pandas.

    Part I embeds the program, Part II gives the vocabulary in which its
    properties are stated, Part III proves supporting lemmas, Part IV
    the properties themselves and Part V further properties of the code. *)

From Stdlib Require Import ZArith NArith Ascii String DecimalString.
From Stdlib Require Import Floats.SpecFloat.
From stdpp Require Import base decidable list strings sorting gmap.

Local Open Scope string_scope.
Local Open Scope list_scope.
#[local] Arguments String.append !_ _ / : simpl nomatch.

(** * Part I: the program *)

(** ** Floating-point comparison *)

(** [x >= y] on float64, as numpy evaluates it: true iff neither side is
    NaN and [y <= x]. *)
Definition float_ge (x y : spec_float) : bool := SFleb y x.

(** [x == y] and [x < y] on float64. *)
Definition float_eq (x y : spec_float) : bool := SFeqb x y.
Definition float_lt (x y : spec_float) : bool := SFltb x y.

Definition is_nan (x : spec_float) : bool :=
  match x with S754_nan => true | _ => false end.

#[global] Instance spec_float_eq_dec : EqDecision spec_float.
Proof. solve_decision. Defined.

(** ** Data model *)

Record AnnotationRow := mkRow {
  text : string;
  label : string;
  annotator_id : string;
  confidence_score : spec_float
}.

#[global] Instance AnnotationRow_eq_dec : EqDecision AnnotationRow.
Proof. solve_decision. Defined.

#[warning="-notation-for-abbreviation"]
Notation DataFrame := (list AnnotationRow).

(** [len(x)] *)
Definition len {A} (xs : list A) : nat := length xs.

(** [df[mask]]: boolean-mask row selection.  The mask is aligned with the
    frame it was computed from; selected rows keep their order. *)
Fixpoint boolean_mask {A : Type} (rows : list A) (mask : list bool) : list A :=
  match rows, mask with
  | r :: rows', b :: mask' =>
      if b then r :: boolean_mask rows' mask' else boolean_mask rows' mask'
  | _, _ => []
  end.

(** [df.copy()]: a frame with the same rows.  Object identity is the
    subject of [Module Store] below. *)
Definition copy (df : DataFrame) : DataFrame := df.

(** ** ConfidenceFilter *)

(** [df[df["confidence_score"] >= threshold].copy()] *)
Definition filter_by_confidence (df : DataFrame) (threshold : spec_float)
  : DataFrame :=
  copy (boolean_mask df
          ((λ r, float_ge (confidence_score r) threshold) <$> df)).

(** ** Duplicate removal *)

(** [Series.duplicated(keep="first")]: entry [i] is true iff an equal
    entry occurs before position [i]. *)
Fixpoint duplicated_from {A} `{EqDecision A} (seen l : list A) : list bool :=
  match l with
  | [] => []
  | x :: l' => bool_decide (x ∈ seen) :: duplicated_from (x :: seen) l'
  end.

Definition duplicated {A} `{EqDecision A} (l : list A) : list bool :=
  duplicated_from [] l.

(** [drop_duplicates()] is [self[~self.duplicated()]]: the first occurrence
    of every entry is kept, in order. *)
Definition drop_duplicates {A} `{EqDecision A} (l : list A) : list A :=
  boolean_mask l (negb <$> duplicated l).

(** ** Python sets of strings *)

(** A Python set is represented by the list of its distinct members
    ([set_ xs] lists them by first insertion); only membership and [len]
    are observable from this representation.  The order in which
    [list(s)] enumerates a set is left to a parameter of the analyzer. *)
#[warning="-notation-for-abbreviation"]
Notation PySet := (list string).
Definition set_ (xs : list string) : PySet := drop_duplicates xs.

(** ** Order on strings *)

(** Python compares [str] values by code point, which on UTF-8 bytes is
    the lexicographic byte order computed by [String.compare]. *)
Definition str_le (s1 s2 : string) : Prop := String.leb s1 s2 = true.
Definition str_lt (s1 s2 : string) : Prop := String.ltb s1 s2 = true.

#[global] Instance str_le_dec : RelDecision str_le.
Proof. intros s1 s2. unfold str_le. apply _. Defined.

(** ** AgreementAnalyzer *)

(** Index of [df.groupby("text")]: the distinct texts, sorted. *)
Definition group_keys (df : DataFrame) : list string :=
  merge_sort str_le (drop_duplicates (text <$> df)).

(** [df[df["text"] == t]] *)
Definition rows_of_text (df : DataFrame) (t : string) : DataFrame :=
  boolean_mask df ((λ r, bool_decide (text r = t)) <$> df).

(** [df.groupby("text")["label"].agg(set)]: one entry per distinct text,
    in sorted key order, holding the set of labels of its rows. *)
Definition label_sets (df : DataFrame) : list (string * PySet) :=
  (λ t, (t, set_ (label <$> rows_of_text df t))) <$> group_keys df.

Record DisagreementRecord := mkRec {
  rec_text : string;
  rec_labels : list string;
  rec_annotators : list string;
  rec_confidence_scores : list spec_float
}.

#[global] Instance DisagreementRecord_eq_dec : EqDecision DisagreementRecord.
Proof. solve_decision. Defined.

(** [set_order] is [list(s)] for a Python set [s]: some enumeration of its
    members, fixed for one run of the interpreter. *)
Definition detect_disagreements (set_order : PySet → list string)
    (df : DataFrame) : list DisagreementRecord :=
  let label_sets := label_sets df in
  let disagreed :=
    boolean_mask label_sets
      ((λ e, bool_decide (1 < len e.2)) <$> label_sets) in
  (λ '(text, labels),
     let sub := rows_of_text df text in
     {| rec_text := text;
        rec_labels := set_order labels;
        rec_annotators := annotator_id <$> sub;
        rec_confidence_scores := confidence_score <$> sub |}) <$> disagreed.

(** ** AgreedSetExtractor *)

Definition extract_agreed (df : DataFrame) : list (string * string) :=
  let label_sets := label_sets df in
  let agreed_texts :=
    (boolean_mask label_sets
       ((λ e, bool_decide (len e.2 = 1)) <$> label_sets)).*1 in
  let kept :=
    boolean_mask df ((λ r, bool_decide (text r ∈ agreed_texts)) <$> df) in
  drop_duplicates ((λ r, (text r, label r)) <$> kept).

(** ** JSON encoding of strings ([json.dumps] with [ensure_ascii=False]) *)

Definition chr (n : N) : ascii := ascii_of_N n.
Definition ord (c : ascii) : N := N_of_ascii c.
Definition str1 (c : ascii) : string := String c EmptyString.

(** The quotation mark, the reverse solidus and the line feed. *)
Definition QUOTE : ascii := chr 34.
Definition BACKSLASH : ascii := chr 92.
Definition LF : ascii := chr 10.

(** ['{0:x}'.format(n)] for one digit. *)
Definition hex_digit (n : N) : ascii :=
  chr (if (n <? 10)%N then 48 + n else 87 + n)%N.

(** The table of [json.encoder]: reverse solidus, quotation mark and the
    control characters below U+0020 have a replacement; every other
    character has none and is written as it is. *)
Definition ESCAPE_DCT (c : ascii) : option string :=
  let n := ord c in
  if (n =? 92)%N then Some (String BACKSLASH (str1 BACKSLASH))
  else if (n =? 34)%N then Some (String BACKSLASH (str1 QUOTE))
  else if (n =? 8)%N then Some (String BACKSLASH "b")
  else if (n =? 12)%N then Some (String BACKSLASH "f")
  else if (n =? 10)%N then Some (String BACKSLASH "n")
  else if (n =? 13)%N then Some (String BACKSLASH "r")
  else if (n =? 9)%N then Some (String BACKSLASH "t")
  else if (n <? 32)%N then
    Some (String BACKSLASH
            ("u00" +:+ String (hex_digit (n / 16))
                         (str1 (hex_digit (n mod 16)))))
  else None.

(** [ESCAPE.sub(replace, s)] *)
Fixpoint escape (s : string) : string :=
  match s with
  | EmptyString => EmptyString
  | String c s' => default (str1 c) (ESCAPE_DCT c) +:+ escape s'
  end.

Definition encode_basestring (s : string) : string :=
  String QUOTE (escape s +:+ str1 QUOTE).

(** [json.dumps({"text": text, "label": label}, ensure_ascii=False)]: the
    members in insertion order, separated by [", "], key and value by
    [": "]. *)
Definition json_dumps (text label : string) : string :=
  "{" +:+ encode_basestring "text" +:+ ": " +:+ encode_basestring text
      +:+ ", " +:+ encode_basestring "label" +:+ ": "
      +:+ encode_basestring label +:+ "}".

(** ** The world: files, log file, console *)

(** A record written to the log: a plain message, or the JSON dump of a
    disagreement record (kept structured; timestamps and the level, always
    INFO, are left out). *)
Inductive log_message :=
  | Message (s : string)
  | RecordDump (rec : DisagreementRecord).

#[global] Instance log_message_eq_dec : EqDecision log_message.
Proof. solve_decision. Defined.

(** [files] maps the path of every regular file to its content.
    [unwritable] holds the paths at which opening a file for writing
    fails: the parent directory is missing, the path names a directory, or
    permission is denied.  No step of the program changes it. *)
Record World := mkWorld {
  files : gmap string string;
  unwritable : gset string;
  log_file : list log_message;
  console_stream : list string
}.

(** Computations that read and update the world and may raise: [None] is
    a propagated exception. *)
Definition IO (A : Type) : Type := World → option A * World.

#[global] Instance IO_ret : MRet IO := λ A x w, (Some x, w).
#[global] Instance IO_bind : MBind IO := λ A B f m w,
  match m w with
  | (Some x, w') => f x w'
  | (None, w') => (None, w')
  end.

(** [raise] *)
Definition raise {A} : IO A := λ w, (None, w).

(** [for x in xs: body(x)] *)
Fixpoint for_each {A} (xs : list A) (body : A → IO unit) : IO unit :=
  match xs with
  | [] => mret tt
  | x :: xs' => body x ;; for_each xs' body
  end.

(** [logging.info(m)]: the root logger appends to the log file. *)
Definition logging_info (m : log_message) : IO unit := λ w,
  (Some tt, {| files := files w;
               unwritable := unwritable w;
               log_file := log_file w ++ [m];
               console_stream := console_stream w |}).

(** [console.info(s)]: the logger named console writes to its stream
    handler and propagates the record to the root logger. *)
Definition console_info (s : string) : IO unit := λ w,
  (Some tt, {| files := files w;
               unwritable := unwritable w;
               log_file := log_file w ++ [Message s];
               console_stream := console_stream w ++ [s] |}).

(** [path.open("w")]: raises [OSError] when the path cannot be opened for
    writing, and then creates nothing; otherwise creates or truncates the
    file. *)
Definition open_w (path : string) : IO unit := λ w,
  if bool_decide (path ∈ unwritable w) then (None, w)
  else
    (Some tt, {| files := <[path := EmptyString]> (files w);
                 unwritable := unwritable w;
                 log_file := log_file w;
                 console_stream := console_stream w |}).

(** [f.write(data)] on the file opened at [path]: an open file takes
    every write. *)
Definition f_write (path data : string) : IO unit := λ w,
  (Some tt, {| files := alter (λ old, old +:+ data) path (files w);
               unwritable := unwritable w;
               log_file := log_file w;
               console_stream := console_stream w |}).

(** ** Exporter *)

(** When [path.open("w")] raises, the body of the [with] statement does
    not run. *)
Definition export_jsonl (df : list (string * string)) (path : string)
  : IO unit :=
  open_w path ;;
  for_each df (λ '(text, label),
    f_write path (json_dumps text label +:+ str1 LF)).

(** ** Constants *)

(** [0.8] as a float64: 7205759403792794 * 2^-53. *)
Definition CONF_THRESHOLD : spec_float :=
  S754_finite false 7205759403792794 (-53).
Definition FILE_RAW : string := "data/raw/raw_annotations.csv".
Definition FILE_OUT : string := "data/processed/clean_training_dataset.jsonl".

(** [str(n)] for a natural number. *)
Definition str (n : nat) : string := NilEmpty.string_of_uint (Nat.to_uint n).

(** ** Tables with a header *)

(** A table as [read_csv] returns it: the column labels of the header and
    the rows.  The header need not have the four columns of the data
    model; a field of a row whose column the header lacks stands for no
    cell, and is never read before the lookup of the column raises. *)
Record Table := mkTable {
  columns : list string;
  rows : DataFrame
}.

(** [df[c]], [df.groupby(c)] and [grouped[c]] look the label [c] up among
    the columns and raise [KeyError] when it is absent. *)
Definition getitem (c : string) (df : Table) : IO unit :=
  if bool_decide (c ∈ columns df) then mret tt else raise.

(** The functions of the pipeline as [main] calls them, on tables with a
    header. *)
Module Frame.

(** [df[df["confidence_score"] >= threshold].copy()]: the selection keeps
    the columns. *)
Definition filter_by_confidence (df : Table) (threshold : spec_float)
  : IO Table :=
  getitem "confidence_score" df ;;
  mret {| columns := columns df;
          rows := filter_by_confidence (rows df) threshold |}.

(** [groupby("text")] and [["label"]] come first; [sub["annotator_id"]]
    and [sub["confidence_score"]] are evaluated in the loop, hence only
    when some text is disagreed. *)
Definition detect_disagreements (set_order : PySet → list string)
    (df : Table) : IO (list DisagreementRecord) :=
  getitem "text" df ;;
  getitem "label" df ;;
  let records := detect_disagreements set_order (rows df) in
  match records with
  | [] => mret []
  | _ :: _ =>
      getitem "annotator_id" df ;;
      getitem "confidence_score" df ;;
      mret records
  end.

Definition extract_agreed (df : Table) : IO (list (string * string)) :=
  getitem "text" df ;;
  getitem "label" df ;;
  mret (extract_agreed (rows df)).

End Frame.

(** ** Loader and main *)

(** [read_csv] is the parser of pandas applied to the bytes of a file;
    [None] when it raises.  A missing file raises as well. *)
Definition load_annotations (read_csv : string → option Table)
    (path : string) : IO Table := λ w,
  match files w !! path with
  | Some bytes => (read_csv bytes, w)
  | None => (None, w)
  end.

Definition main (read_csv : string → option Table)
    (set_order : PySet → list string) : IO unit :=
  console_info "Reading raw annotations…" ;;
  df_raw ← load_annotations read_csv FILE_RAW;
  console_info "Filtering by confidence…" ;;
  df_conf ← Frame.filter_by_confidence df_raw CONF_THRESHOLD;
  console_info
    ("After confidence filter: " +:+ str (len (rows df_conf)) +:+ " rows") ;;
  console_info "Checking agreement…" ;;
  disagreements ← Frame.detect_disagreements set_order df_conf;
  (match disagreements with
   | _ :: _ =>
       logging_info (Message "Disagreed samples:") ;;
       for_each disagreements (λ rec, logging_info (RecordDump rec))
   | [] => logging_info (Message "Disagreed samples: 0")
   end) ;;
  df_clean ← Frame.extract_agreed df_conf;
  console_info ("Agreed samples: " +:+ str (len df_clean)) ;;
  console_info "Exporting JSONL…" ;;
  export_jsonl df_clean FILE_OUT ;;
  console_info "Done.".

(** ** Frames as objects *)

(** The same filter with frames held in a store of objects, to account
    for identity and mutation: boolean-mask selection and [copy] each
    allocate a new frame. *)
Module Store.

(** References are natural numbers; the heap maps each allocated
    reference to the rows of its frame. *)
Definition alloc (rows : DataFrame) (h : gmap nat DataFrame)
  : nat * gmap nat DataFrame :=
  let r := fresh (dom h) in (r, <[r := rows]> h).

(** [df["confidence_score"] >= threshold] *)
Definition column_ge (df : nat) (threshold : spec_float)
    (h : gmap nat DataFrame) : option (list bool) :=
  rows ← h !! df;
  Some (fmap (M:=list) (λ r, float_ge (confidence_score r) threshold) rows).

(** [df[mask]] *)
Definition getitem_mask (df : nat) (mask : list bool)
    (h : gmap nat DataFrame) : option (nat * gmap nat DataFrame) :=
  rows ← h !! df;
  Some (alloc (boolean_mask rows mask) h).

(** [df.copy()] *)
Definition copy (df : nat) (h : gmap nat DataFrame)
  : option (nat * gmap nat DataFrame) :=
  rows ← h !! df;
  Some (alloc (copy rows) h).

Definition filter_by_confidence (df : nat) (threshold : spec_float)
    (h : gmap nat DataFrame) : option (nat * gmap nat DataFrame) :=
  mask ← column_ge df threshold h;
  '(selected, h1) ← getitem_mask df mask h;
  copy selected h1.

(** An in-place update of the frame at [df]. *)
Definition assign (df : nat) (rows : DataFrame) (h : gmap nat DataFrame)
  : gmap nat DataFrame :=
  <[df := rows]> h.

End Store.

(** * Part II: vocabulary of the properties *)

(** ** Agreement, stated on the rows *)

(** Some row of [df] gives text [t] the label [l]. *)
Definition has_label (df : DataFrame) (t l : string) : Prop :=
  ∃ r, r ∈ df ∧ text r = t ∧ label r = l.

(** The rows of [t] carry two or more distinct labels. *)
Definition disagreed_text (df : DataFrame) (t : string) : Prop :=
  ∃ l1 l2, has_label df t l1 ∧ has_label df t l2 ∧ l1 ≠ l2.

(** The rows of [t] carry exactly one distinct label. *)
Definition agreed_text (df : DataFrame) (t : string) : Prop :=
  ∃ l, has_label df t l ∧ ∀ l', has_label df t l' → l' = l.

(** [out] is exactly the entries of [l] that satisfy [P], in the order of
    [l]: a subsequence of [l], all of whose entries satisfy [P], and above
    every other such subsequence. *)
Definition selection {A} (P : A → Prop) (l out : list A) : Prop :=
  out `sublist_of` l ∧ Forall P out ∧
  ∀ k, k `sublist_of` l → Forall P k → k `sublist_of` out.

(** ** Intermediate values of the analyzer *)

(** Duplicate removal relative to entries already seen. *)
Definition dedup_from {A} `{EqDecision A} (seen l : list A) : list A :=
  boolean_mask l (negb <$> duplicated_from seen l).

(** The label set of the group of [t]. *)
Definition group_labels (df : DataFrame) (t : string) : PySet :=
  set_ (label <$> rows_of_text df t).

(** Index of [label_sets[label_sets.apply(len) > 1]]. *)
Definition disagreed_keys (df : DataFrame) : list string :=
  boolean_mask (group_keys df)
    ((λ t, bool_decide (1 < len (group_labels df t))) <$> group_keys df).

(** Index of [label_sets[label_sets.apply(len) == 1]]. *)
Definition agreed_keys (df : DataFrame) : list string :=
  boolean_mask (group_keys df)
    ((λ t, bool_decide (len (group_labels df t) = 1)) <$> group_keys df).

(** ** A reader for JSON objects with string members

    The fragment of RFC 8259 needed to read back an exported line: an
    object whose members all have string values.  Escapes of surrogate
    halves are rejected rather than paired. *)
Module JSON.

Definition hex_val (c : ascii) : option N :=
  let n := ord c in
  if ((48 <=? n) && (n <=? 57))%N then Some (n - 48)%N
  else if ((97 <=? n) && (n <=? 102))%N then Some (n - 87)%N
  else if ((65 <=? n) && (n <=? 70))%N then Some (n - 55)%N
  else None.

Definition utf8_encode (cp : N) : option string :=
  if (cp <? 128)%N then Some (str1 (chr cp))
  else if (cp <? 2048)%N then
    Some (String (chr (192 + cp / 64)) (str1 (chr (128 + cp mod 64))))
  else if ((55296 <=? cp) && (cp <? 57344))%N then None
  else
    Some (String (chr (224 + cp / 4096))
            (String (chr (128 + (cp / 64) mod 64))
               (str1 (chr (128 + cp mod 64))))).

Definition unescape (c : ascii) : option ascii :=
  let n := ord c in
  if (n =? 34)%N then Some (chr 34)
  else if (n =? 92)%N then Some (chr 92)
  else if (n =? 47)%N then Some (chr 47)
  else if (n =? 98)%N then Some (chr 8)
  else if (n =? 102)%N then Some (chr 12)
  else if (n =? 110)%N then Some (chr 10)
  else if (n =? 114)%N then Some (chr 13)
  else if (n =? 116)%N then Some (chr 9)
  else None.

(** Reads the characters of a string literal after its opening quotation
    mark; returns the value and the input after the closing mark. *)
Fixpoint read_string (s : string) : option (string * string) :=
  match s with
  | EmptyString => None
  | String c s1 =>
      if (ord c =? 34)%N then Some (EmptyString, s1)
      else if (ord c =? 92)%N then
        match s1 with
        | EmptyString => None
        | String e s2 =>
            if (ord e =? 117)%N then
              match s2 with
              | String h1 (String h2 (String h3 (String h4 rest))) =>
                  d1 ← hex_val h1; d2 ← hex_val h2;
                  d3 ← hex_val h3; d4 ← hex_val h4;
                  u ← utf8_encode (((d1 * 16 + d2) * 16 + d3) * 16 + d4)%N;
                  '(v, r) ← read_string rest;
                  Some (u +:+ v, r)
              | _ => None
              end
            else
              a ← unescape e;
              '(v, r) ← read_string s2;
              Some (String a v, r)
        end
      else if (ord c <? 32)%N then None
      else '(v, r) ← read_string s1; Some (String c v, r)
  end.

Definition is_ws (c : ascii) : bool :=
  let n := ord c in ((n =? 32) || (n =? 9) || (n =? 10) || (n =? 13))%N.

Fixpoint skip_ws (s : string) : string :=
  match s with
  | String c s1 => if is_ws c then skip_ws s1 else s
  | EmptyString => s
  end.

(** Skips white space, then consumes the character of code [n]. *)
Definition expect (n : N) (s : string) : option string :=
  match skip_ws s with
  | String c s1 => if (ord c =? n)%N then Some s1 else None
  | EmptyString => None
  end.

(** Reads [key : value] members up to the closing brace. *)
Fixpoint read_members (fuel : nat) (s : string)
  : option (list (string * string) * string) :=
  match fuel with
  | 0 => None
  | S fuel1 =>
      s1 ← expect 34 s; '(k, s2) ← read_string s1;
      s3 ← expect 58 s2;
      s4 ← expect 34 s3; '(v, s5) ← read_string s4;
      match expect 44 s5 with
      | Some s6 => '(ms, r) ← read_members fuel1 s6; Some ((k, v) :: ms, r)
      | None => r ← expect 125 s5; Some ([(k, v)], r)
      end
  end.

(** Reads one object and requires that nothing but white space follows:
    the members in order, as key and value. *)
Definition read_object (s : string) : option (list (string * string)) :=
  s1 ← expect 123 s;
  '(ms, r) ← read_members (String.length s1) s1;
  match skip_ws r with EmptyString => Some ms | _ => None end.

End JSON.

(** One member [k: v] as [json_dumps] writes it, after the opening
    quotation mark of the key. *)
Definition member_tail (k v rest : string) : string :=
  escape k +:+ String QUOTE (": " +:+ String QUOTE (escape v +:+ String QUOTE rest)).

(** ** Lines and bytes of a text file *)

(** The lines of a text, split at line feeds; a last line need not be
    terminated. *)
Fixpoint lines (s : string) : list string :=
  match s with
  | EmptyString => []
  | String c s' =>
      if (ord c =? 10)%N then EmptyString :: lines s'
      else match lines s' with
           | [] => [str1 c]
           | l :: ls => String c l :: ls
           end
  end.

(** [c] occurs in [s]. *)
Fixpoint has_char (n : N) (s : string) : bool :=
  match s with
  | EmptyString => false
  | String c s' => (ord c =? n)%N || has_char n s'
  end.

(** The bytes of [s] outside ASCII, in order. *)
Fixpoint non_ascii (s : string) : string :=
  match s with
  | EmptyString => EmptyString
  | String c s' =>
      if (128 <=? ord c)%N then String c (non_ascii s') else non_ascii s'
  end.

(** The text of a JSONL file holding one line per pair. *)
Fixpoint jsonl (df : list (string * string)) : string :=
  match df with
  | [] => EmptyString
  | (t, l) :: df' => json_dumps t l +:+ String LF (jsonl df')
  end.

(** ** The observable effect of one run *)

(** The columns of the data model. *)
Definition REQUIRED_COLUMNS : list string :=
  ["text"; "label"; "annotator_id"; "confidence_score"].

(** The header of [df] has every column of [cs]. *)
Definition has_columns (cs : list string) (df : Table) : Prop :=
  Forall (λ c, c ∈ columns df) cs.

(** What the reporting step of [main] logs for the records [ds]. *)
Definition report_entries (ds : list DisagreementRecord) : list log_message :=
  match ds with
  | [] => [Message "Disagreed samples: 0"]
  | _ :: _ => Message "Disagreed samples:" :: (RecordDump <$> ds)
  end.

(** The progress messages of a run that loaded the rows [df_raw]. *)
Definition progress_before (df_raw : DataFrame) : list string :=
  [ "Reading raw annotations…"; "Filtering by confidence…";
    "After confidence filter: "
      +:+ str (len (filter_by_confidence df_raw CONF_THRESHOLD)) +:+ " rows";
    "Checking agreement…" ].

Definition progress_after (df_raw : DataFrame) : list string :=
  [ "Agreed samples: "
      +:+ str (len (extract_agreed (filter_by_confidence df_raw CONF_THRESHOLD)));
    "Exporting JSONL…"; "Done." ].

(** The entries a completed run that loaded [df_raw] appends to the log
    file. *)
Definition run_log (set_order : PySet → list string) (df_raw : DataFrame)
  : list log_message :=
  (Message <$> progress_before df_raw)
  ++ report_entries
       (detect_disagreements set_order
          (filter_by_confidence df_raw CONF_THRESHOLD))
  ++ (Message <$> progress_after df_raw).

(** The stage at which a run stops: the step that raises, or the end. *)
Inductive stage := AtLoad | AtFilter | AtAnalysis | AtExport | Completed.

#[global] Instance stage_eq_dec : EqDecision stage.
Proof. solve_decision. Defined.

(** The analyzer finds on [df] the columns it reads: the grouping needs
    [text] and [label], a record needs [annotator_id] and
    [confidence_score] as well. *)
Definition analysable (df : Table) : Prop :=
  has_columns ["text"; "label"] df
  ∧ (disagreed_keys (filter_by_confidence (rows df) CONF_THRESHOLD) = []
     ∨ has_columns ["annotator_id"; "confidence_score"] df).

#[global] Instance analysable_dec df : Decision (analysable df).
Proof. unfold analysable, has_columns. apply _. Defined.

(** The stage at which the run stops, from what the loader returned and
    the world. *)
Definition run_stage (loaded : option Table) (w : World) : stage :=
  match loaded with
  | None => AtLoad
  | Some df =>
      if bool_decide ("confidence_score" ∈ columns df) then
        if bool_decide (analysable df) then
          if bool_decide (FILE_OUT ∈ unwritable w) then AtExport
          else Completed
        else AtAnalysis
      else AtFilter
  end.

(** What a run that stops at stage [s] writes to the console. *)
Definition console_at (s : stage) (df_raw : DataFrame) : list string :=
  match s with
  | AtLoad => take 1 (progress_before df_raw)
  | AtFilter => take 2 (progress_before df_raw)
  | AtAnalysis => progress_before df_raw
  | AtExport => progress_before df_raw ++ take 2 (progress_after df_raw)
  | Completed => progress_before df_raw ++ progress_after df_raw
  end.

(** What it appends to the log file. *)
Definition log_at (set_order : PySet → list string) (s : stage)
    (df_raw : DataFrame) : list log_message :=
  match s with
  | AtLoad | AtFilter | AtAnalysis => Message <$> console_at s df_raw
  | AtExport =>
      (Message <$> progress_before df_raw)
      ++ report_entries
           (detect_disagreements set_order
              (filter_by_confidence df_raw CONF_THRESHOLD))
      ++ (Message <$> take 2 (progress_after df_raw))
  | Completed => run_log set_order df_raw
  end.

(** The world after a run that stops at stage [s]: only a completed run
    writes the export file. *)
Definition world_at (set_order : PySet → list string) (s : stage)
    (df_raw : DataFrame) (w : World) : World :=
  {| files :=
       match s with
       | Completed =>
           <[FILE_OUT :=
               jsonl (extract_agreed
                        (filter_by_confidence df_raw CONF_THRESHOLD))]>
             (files w)
       | _ => files w
       end;
     unwritable := unwritable w;
     log_file := log_file w ++ log_at set_order s df_raw;
     console_stream := console_stream w ++ console_at s df_raw |}.

(** The rows of what the loader returned. *)
Definition loaded_rows (loaded : option Table) : DataFrame :=
  from_option rows [] loaded.

(** The world with the file at [path] replaced. *)
Definition with_file (path content : string) (w : World) : World :=
  {| files := <[path := content]> (files w);
     unwritable := unwritable w;
     log_file := log_file w;
     console_stream := console_stream w |}.

(** ** Sample data *)

(** [0.9] and [0.7] as float64. *)
Definition f64_0_9 : spec_float := S754_finite false 8106479329266893 (-53).
Definition f64_0_7 : spec_float := S754_finite false 6305039478318694 (-53).

(** Two annotators agree on the first text and disagree on the second; a
    third text falls below the threshold and a fourth has a row without
    score. *)
Definition sample_raw : DataFrame :=
  [ mkRow "hi" "greet" "A1" f64_0_9;
    mkRow "hi" "greet" "A2" CONF_THRESHOLD;
    mkRow "bye" "farewell" "A1" f64_0_9;
    mkRow "bye" "greet" "A2" f64_0_9;
    mkRow "later" "farewell" "A1" f64_0_7;
    mkRow "ciao" "greet" "A1" S754_nan;
    mkRow "ciao" "farewell" "A2" f64_0_9 ].

(** Three annotators label one text A, A, B. *)
Definition sample_aab : DataFrame :=
  [ mkRow "t" "A" "A1" f64_0_9;
    mkRow "t" "A" "A2" CONF_THRESHOLD;
    mkRow "t" "B" "A3" f64_0_9 ].

(** The two agreeing rows of the sample and the row below the threshold:
    no disagreement remains. *)
Definition sample_agreeing : DataFrame :=
  [ mkRow "hi" "greet" "A1" f64_0_9;
    mkRow "hi" "greet" "A2" CONF_THRESHOLD;
    mkRow "later" "farewell" "A1" f64_0_7 ].

(** The input and a stale export are present; the export can be opened. *)
Definition sample_world : World :=
  {| files := {[ FILE_RAW := "csv"; FILE_OUT := "stale" ]};
     unwritable := ∅;
     log_file := [Message "earlier run"];
     console_stream := [] |}.

(** The same, with no directory for the export. *)
Definition sample_world_blocked : World :=
  {| files := {[ FILE_RAW := "csv" ]};
     unwritable := {[ FILE_OUT ]};
     log_file := [Message "earlier run"];
     console_stream := [] |}.

(** A parser that returns the rows under a full header. *)
Definition sample_read_csv (df : DataFrame) (bytes : string) : option Table :=
  Some {| columns := REQUIRED_COLUMNS; rows := df |}.

(** ** Further vocabulary *)

(** The records dumped among log entries, in order. *)
Definition dumped_records (entries : list log_message)
  : list DisagreementRecord :=
  omap (λ m, match m with RecordDump rec => Some rec | Message _ => None end)
    entries.

(** No character of [s] is a control character below U+0020. *)
Fixpoint no_control (s : string) : bool :=
  match s with
  | EmptyString => true
  | String c s' => (32 <=? ord c)%N && no_control s'
  end.

(** Reads one exported line back as a pair: an object with the members
    [text] and [label], in this order, and nothing else. *)
Definition read_pair (line : string) : option (string * string) :=
  match JSON.read_object line with
  | Some [(k1, t); (k2, l)] =>
      if bool_decide (k1 = "text" ∧ k2 = "label") then Some (t, l) else None
  | _ => None
  end.

(** Reads a JSONL text back, line by line. *)
Definition read_jsonl (content : string) : option (list (string * string)) :=
  mapM read_pair (lines content).

(** Every text labelled by one annotator only: nothing to compare. *)
Definition sample_single : DataFrame :=
  [ mkRow "hi" "greet" "A1" f64_0_9;
    mkRow "bye" "farewell" "A2" f64_0_9;
    mkRow "ciao" "greet" "A1" CONF_THRESHOLD ].

(** * Part III: supporting lemmas *)

(** ** Facts about masks and float comparison *)

Lemma boolean_mask_map_sublist {A} (p : A → bool) (l : list A) :
  boolean_mask l (p <$> l) `sublist_of` l.
Proof.
  induction l as [|x l IH]; simpl; [constructor|].
  destruct (p x); by constructor.
Qed.

Lemma elem_of_boolean_mask_map {A} (p : A → bool) (l : list A) (x : A) :
  x ∈ boolean_mask l (p <$> l) ↔ x ∈ l ∧ p x = true.
Proof.
  induction l as [|y l IH]; simpl.
  - split; [intros H | intros [H _]]; by apply elem_of_nil in H.
  - destruct (p y) eqn:Hy; rewrite ?elem_of_cons, IH.
    + split; [intros [->|[? ?]]; auto | intros [[->|?] ?]; auto].
    + split; [tauto|]. intros [[->|Hx] Hp]; [congruence|tauto].
Qed.

Lemma boolean_mask_map_maximal {A} (p : A → bool) (l k : list A) :
  k `sublist_of` l → Forall (λ x, p x = true) k →
  k `sublist_of` boolean_mask l (p <$> l).
Proof.
  intros Hsub. induction Hsub as [|x k l _ IH|x k l _ IH]; intros Hall; simpl.
  - constructor.
  - apply Forall_cons in Hall as [-> Hall]. constructor. by apply IH.
  - destruct (p x); [constructor|]; by apply IH.
Qed.

Lemma SFcompare_antisym (x y : spec_float) :
  SFcompare y x = option_map CompOpp (SFcompare x y).
Proof.
  destruct x as [sx|sx| |sx mx ex], y as [sy|sy| |sy my ey]; simpl;
    try done; try (by destruct sx); try (by destruct sy);
    try (by destruct sx, sy).
  pose proof (Pos.compare_cont_antisym mx my Eq) as Hm. simpl in Hm.
  destruct sx, sy; try done; f_equal;
    rewrite (Z.compare_antisym ex ey);
    destruct (ex ?= ey)%Z; simpl; try done;
    rewrite <- Hm; by rewrite ?CompOpp_involutive.
Qed.

Lemma float_lt_not_ge (x y : spec_float) :
  float_lt x y = true → float_ge x y = false.
Proof.
  unfold float_lt, float_ge, SFltb, SFleb.
  rewrite (SFcompare_antisym y x).
  by destruct (SFcompare y x) as [[]|].
Qed.

Lemma float_eq_ge (x y : spec_float) :
  float_eq x y = true → float_ge x y = true.
Proof.
  unfold float_eq, float_ge, SFeqb, SFleb.
  rewrite (SFcompare_antisym y x).
  by destruct (SFcompare y x) as [[]|].
Qed.

Lemma float_ge_nan_l (y : spec_float) : float_ge S754_nan y = false.
Proof. by destruct y as [[]|[]| |[]]. Qed.

(** ** Facts about duplicate removal *)

Section dedup.
Context {A : Type} `{EqDecision A}.
Implicit Types (l seen : list A).

Lemma dedup_from_cons seen x l :
  dedup_from seen (x :: l) =
    if bool_decide (x ∈ seen) then dedup_from (x :: seen) l
    else x :: dedup_from (x :: seen) l.
Proof. unfold dedup_from. simpl. by destruct (bool_decide _). Qed.

Lemma elem_of_dedup_from seen l x :
  x ∈ dedup_from seen l ↔ x ∈ l ∧ x ∉ seen.
Proof.
  revert seen. induction l as [|y l IH]; intros seen.
  - unfold dedup_from; simpl. rewrite !elem_of_nil. tauto.
  - rewrite dedup_from_cons. case_bool_decide as Hy.
    + rewrite IH, !elem_of_cons. split.
      * intros [Hx Hn]. split; [by right|]. intros ?. apply Hn. by right.
      * intros [[->|Hx] Hn]; [done|]. split; [done|].
        intros [->|?]; done.
    + rewrite !elem_of_cons, IH, !elem_of_cons. split.
      * intros [->|[Hx Hn]]; [by split; [left|]|].
        split; [by right|]. intros ?. apply Hn. by right.
      * intros [[->|Hx] Hn]; [by left|].
        destruct (decide (x = y)) as [->|Hne]; [by left|].
        right. split; [done|]. intros [?|?]; done.
Qed.

Lemma NoDup_dedup_from seen l : NoDup (dedup_from seen l).
Proof.
  revert seen. induction l as [|y l IH]; intros seen.
  - constructor.
  - rewrite dedup_from_cons. case_bool_decide; [apply IH|].
    constructor; [|apply IH].
    rewrite elem_of_dedup_from, elem_of_cons. intros [_ Hn]. apply Hn. by left.
Qed.

Lemma dedup_from_sublist seen l : dedup_from seen l `sublist_of` l.
Proof.
  revert seen. induction l as [|y l IH]; intros seen.
  - constructor.
  - rewrite dedup_from_cons. case_bool_decide; by constructor.
Qed.

Lemma drop_duplicates_dedup l : drop_duplicates l = dedup_from [] l.
Proof. done. Qed.

Lemma elem_of_drop_duplicates l x : x ∈ drop_duplicates l ↔ x ∈ l.
Proof.
  rewrite drop_duplicates_dedup, elem_of_dedup_from, elem_of_nil. tauto.
Qed.

Lemma NoDup_drop_duplicates l : NoDup (drop_duplicates l).
Proof. apply NoDup_dedup_from. Qed.

Lemma drop_duplicates_sublist l : drop_duplicates l `sublist_of` l.
Proof. apply dedup_from_sublist. Qed.

(** The entry kept for a value is its first occurrence. *)
Lemma dedup_from_app_first seen l1 x l2 :
  x ∉ seen → x ∉ l1 →
  dedup_from seen (l1 ++ x :: l2) =
    dedup_from seen l1 ++ x :: dedup_from (x :: reverse l1 ++ seen) l2.
Proof.
  revert seen. induction l1 as [|y l1 IH]; intros seen Hs Hl; simpl.
  - rewrite dedup_from_cons. by rewrite bool_decide_eq_false_2.
  - apply not_elem_of_cons in Hl as [Hxy Hl].
    rewrite !dedup_from_cons, IH; [|by apply not_elem_of_cons|done].
    rewrite reverse_cons, <- (assoc_L (++)). simpl.
    by case_bool_decide.
Qed.
End dedup.

(** ** Facts about the string order *)

Lemma ascii_compare_refl (a : ascii) : Ascii.compare a a = Eq.
Proof. unfold Ascii.compare. apply N.compare_refl. Qed.

Lemma ascii_compare_Lt_trans (a b c : ascii) :
  Ascii.compare a b = Lt → Ascii.compare b c = Lt → Ascii.compare a c = Lt.
Proof.
  unfold Ascii.compare. rewrite !N.compare_lt_iff. apply N.lt_trans.
Qed.

Lemma string_compare_Lt_trans (s1 s2 s3 : string) :
  String.compare s1 s2 = Lt → String.compare s2 s3 = Lt →
  String.compare s1 s3 = Lt.
Proof.
  revert s2 s3. induction s1 as [|a s1 IH]; intros [|b s2] [|c s3]; simpl;
    try done.
  destruct (Ascii.compare a b) eqn:Hab; try done;
    destruct (Ascii.compare b c) eqn:Hbc; try done; intros H12 H23.
  - apply Ascii.compare_eq_iff in Hab as ->, Hbc as ->.
    rewrite ascii_compare_refl. by apply (IH s2).
  - apply Ascii.compare_eq_iff in Hab as ->. by rewrite Hbc.
  - apply Ascii.compare_eq_iff in Hbc as <-. by rewrite Hab.
  - by rewrite (ascii_compare_Lt_trans a b c).
Qed.

Lemma str_le_lt_eq (s1 s2 : string) : str_le s1 s2 ↔ str_lt s1 s2 ∨ s1 = s2.
Proof.
  unfold str_le, str_lt, String.leb, String.ltb.
  destruct (String.compare s1 s2) eqn:Hc.
  - apply String.compare_eq_iff in Hc. tauto.
  - tauto.
  - split; [done|]. intros [?| ->]; [done|]. exfalso.
    pose proof (String.compare_antisym s2 s2) as Ha.
    rewrite Hc in Ha. done.
Qed.

#[global] Instance str_lt_trans : Transitive str_lt.
Proof.
  intros s1 s2 s3. unfold str_lt, String.ltb.
  destruct (String.compare s1 s2) eqn:H12; try done.
  destruct (String.compare s2 s3) eqn:H23; try done.
  by rewrite (string_compare_Lt_trans s1 s2 s3).
Qed.

#[global] Instance str_le_trans : Transitive str_le.
Proof.
  intros s1 s2 s3. rewrite !str_le_lt_eq.
  intros [H12| ->] [H23| ->]; auto. left. by transitivity s2.
Qed.

#[global] Instance str_le_total : Total str_le.
Proof. intros s1 s2. apply String.leb_total. Qed.

Lemma str_lt_irrefl (s : string) : ¬ str_lt s s.
Proof.
  unfold str_lt, String.ltb. intros H.
  pose proof (String.compare_antisym s s) as Ha.
  destruct (String.compare s s); done.
Qed.

(** A duplicate-free list sorted by [str_le] is strictly increasing. *)
Lemma StronglySorted_str_lt (l : list string) :
  NoDup l → StronglySorted str_le l → StronglySorted str_lt l.
Proof.
  induction 2 as [|x l Hl IH Hx]; constructor.
  - apply IH. by eapply NoDup_cons_1_2.
  - apply NoDup_cons in H as [Hnx _].
    rewrite Forall_forall in Hx |- *. intros y Hy.
    destruct (proj1 (str_le_lt_eq x y) (Hx y Hy)) as [?| ->]; done.
Qed.

(** A strictly increasing list is determined by its members. *)
Lemma StronglySorted_str_lt_unique (l k : list string) :
  StronglySorted str_lt l → StronglySorted str_lt k →
  (∀ x, x ∈ l ↔ x ∈ k) → l = k.
Proof.
  intros Hl. revert k. induction Hl as [|x l Hl IH Hx]; intros k Hk Heq.
  - destruct k as [|y k]; [done|]. exfalso.
    apply (not_elem_of_nil y), Heq. by left.
  - destruct Hk as [|y k Hk Hy].
    { exfalso. apply (not_elem_of_nil x), Heq. by left. }
    rewrite Forall_forall in Hx, Hy.
    assert (x = y) as ->.
    { assert (x ∈ y :: k) as Hxk by (apply Heq; by left).
      assert (y ∈ x :: l) as Hyl by (apply Heq; by left).
      apply elem_of_cons in Hxk as [?|Hxk]; [done|].
      apply elem_of_cons in Hyl as [?|Hyl]; [done|].
      exfalso. apply (str_lt_irrefl x). transitivity y; auto. }
    f_equal. apply IH; [done|]. intros z. split; intros Hz.
    + assert (z ∈ y :: k) as Hzk by (apply Heq; by right).
      apply elem_of_cons in Hzk as [->|?]; [|done].
      exfalso. by apply (str_lt_irrefl y), Hx.
    + assert (z ∈ y :: l) as Hzl by (apply Heq; by right).
      apply elem_of_cons in Hzl as [->|?]; [|done].
      exfalso. by apply (str_lt_irrefl y), Hy.
Qed.

(** ** Facts about selections and lists *)

Lemma selection_unique {A} (P : A → Prop) (l out1 out2 : list A) :
  selection P l out1 → selection P l out2 → out1 = out2.
Proof.
  intros (Hs1 & Hp1 & Hm1) (Hs2 & Hp2 & Hm2).
  apply (anti_symm sublist); auto.
Qed.

Lemma boolean_mask_selection {A} (p : A → bool) (l : list A) :
  selection (λ x, p x = true) l (boolean_mask l (p <$> l)).
Proof.
  split; [apply boolean_mask_map_sublist|]. split.
  - apply Forall_forall. intros x Hx.
    by apply elem_of_boolean_mask_map in Hx as [_ ?].
  - apply boolean_mask_map_maximal.
Qed.

Lemma boolean_mask_fmap {A B} (g : A → B) (l : list A) (m : list bool) :
  boolean_mask (g <$> l) m = g <$> boolean_mask l m.
Proof.
  revert m. induction l as [|x l IH]; intros [|[] m]; simpl; try done.
  by rewrite IH.
Qed.

Lemma StronglySorted_sublist {A} (R : relation A) (l k : list A) :
  k `sublist_of` l → StronglySorted R l → StronglySorted R k.
Proof.
  induction 1 as [|x k l Hs IH|x k l Hs IH]; intros Hl.
  - constructor.
  - apply StronglySorted_inv in Hl as [Hl Hx]. constructor; [by apply IH|].
    rewrite Forall_forall in Hx |- *. intros y Hy.
    apply Hx. by eapply elem_of_sublist.
  - apply StronglySorted_inv in Hl as [Hl _]. by apply IH.
Qed.

Lemma filter_none {A} (P : A → Prop) `{∀ x, Decision (P x)} (l : list A) :
  (∀ x, x ∈ l → ¬ P x) → filter P l = [].
Proof.
  induction l as [|x l IH]; intros Hl; [done|].
  rewrite filter_cons_False; [|apply Hl; by left].
  apply IH. intros y Hy. apply Hl. by right.
Qed.

(** In a list whose images under [f] are pairwise distinct, exactly one
    entry has a given image that occurs. *)
Lemma length_filter_NoDup_fmap {A B} `{EqDecision B} (f : A → B)
    (l : list A) (y : B) :
  NoDup (f <$> l) → y ∈ f <$> l → length (filter (λ x, f x = y) l) = 1.
Proof.
  induction l as [|x l IH]; simpl; intros Hnd Hy.
  - by apply elem_of_nil in Hy.
  - apply NoDup_cons in Hnd as [Hx Hnd].
    destruct (decide (f x = y)) as [Hfx|Hfx].
    + rewrite filter_cons_True by done. simpl. f_equal.
      rewrite filter_none; [done|]. intros z Hz Hfz. apply Hx.
      rewrite Hfx, <- Hfz. apply list_elem_of_fmap. by exists z.
    + rewrite filter_cons_False by done. apply IH; [done|].
      apply elem_of_cons in Hy as [?|?]; [congruence|done].
Qed.

(** A duplicate-free list has two or more entries iff it has two distinct
    members, and exactly one entry iff it has a member equal to all. *)
Lemma NoDup_length_gt_1 {A} (l : list A) :
  NoDup l → (1 < length l ↔ ∃ a b, a ∈ l ∧ b ∈ l ∧ a ≠ b).
Proof.
  intros Hnd. split.
  - destruct l as [|a [|b l]]; simpl; [lia|lia|]. intros _.
    exists a, b. split; [by left|]. split; [right; by left|].
    apply NoDup_cons in Hnd as [Ha _]. intros ->. apply Ha. by left.
  - intros (a & b & Ha & Hb & Hab).
    destruct l as [|x [|y l]]; simpl; [|exfalso|lia].
    + by apply elem_of_nil in Ha.
    + apply list_elem_of_singleton in Ha, Hb. congruence.
Qed.

Lemma NoDup_length_eq_1 {A} (l : list A) :
  NoDup l → (length l = 1 ↔ ∃ a, a ∈ l ∧ ∀ b, b ∈ l → b = a).
Proof.
  intros Hnd. split.
  - destruct l as [|a [|b l]]; simpl; [lia| |lia]. intros _.
    exists a. split; [by left|]. by intros b ->%list_elem_of_singleton.
  - intros (a & Ha & Hall). destruct l as [|x [|y l]]; simpl; [|done|exfalso].
    + by apply elem_of_nil in Ha.
    + apply NoDup_cons in Hnd as [Hx _]. apply Hx.
      rewrite (Hall x) by (by left). rewrite (Hall y) by (right; by left).
      by left.
Qed.

(** ** Facts about the analyzer *)

Lemma elem_of_rows_of_text (df : DataFrame) (t : string) (r : AnnotationRow) :
  r ∈ rows_of_text df t ↔ r ∈ df ∧ text r = t.
Proof.
  unfold rows_of_text.
  rewrite (elem_of_boolean_mask_map (λ r, bool_decide (text r = t))).
  by rewrite bool_decide_eq_true.
Qed.

Lemma rows_of_text_selection (df : DataFrame) (t : string) :
  selection (λ r, text r = t) df (rows_of_text df t).
Proof.
  destruct (boolean_mask_selection (λ r, bool_decide (text r = t)) df)
    as (Hs & Hp & Hm).
  split; [done|]. split.
  - eapply Forall_impl; [exact Hp|]. intros r. by rewrite bool_decide_eq_true.
  - intros k Hk Hall. apply Hm; [done|].
    eapply Forall_impl; [exact Hall|]. intros r. by rewrite bool_decide_eq_true.
Qed.

Lemma elem_of_group_labels (df : DataFrame) (t l : string) :
  l ∈ group_labels df t ↔ has_label df t l.
Proof.
  unfold group_labels, set_, has_label.
  rewrite elem_of_drop_duplicates, list_elem_of_fmap. split.
  - intros (r & -> & Hr). apply elem_of_rows_of_text in Hr as [? ?]. eauto.
  - intros (r & Hr & Ht & <-). exists r. split; [done|].
    by apply elem_of_rows_of_text.
Qed.

Lemma NoDup_group_labels (df : DataFrame) (t : string) :
  NoDup (group_labels df t).
Proof. apply NoDup_drop_duplicates. Qed.

Lemma group_labels_disagreed (df : DataFrame) (t : string) :
  1 < len (group_labels df t) ↔ disagreed_text df t.
Proof.
  unfold len, disagreed_text.
  rewrite (NoDup_length_gt_1 _ (NoDup_group_labels df t)).
  by setoid_rewrite elem_of_group_labels.
Qed.

Lemma group_labels_agreed (df : DataFrame) (t : string) :
  len (group_labels df t) = 1 ↔ agreed_text df t.
Proof.
  unfold len, agreed_text.
  rewrite (NoDup_length_eq_1 _ (NoDup_group_labels df t)).
  by setoid_rewrite elem_of_group_labels.
Qed.

Lemma agreed_not_disagreed (df : DataFrame) (t : string) :
  agreed_text df t → ¬ disagreed_text df t.
Proof.
  intros (l & _ & Hall) (l1 & l2 & H1 & H2 & Hne).
  apply Hne. by rewrite (Hall l1), (Hall l2).
Qed.

Lemma agreed_or_disagreed (df : DataFrame) (t : string) :
  t ∈ (text <$> df) → agreed_text df t ∨ disagreed_text df t.
Proof.
  intros (r & -> & Hr)%list_elem_of_fmap.
  destruct (decide (1 < len (group_labels df (text r)))) as [Hd|Hd].
  { right. by apply group_labels_disagreed. }
  left. apply group_labels_agreed.
  assert (label r ∈ group_labels df (text r)) as Hin.
  { apply elem_of_group_labels. by exists r. }
  unfold len in *. destruct (group_labels df (text r)) as [|? [|? ?]];
    simpl in *; [by apply elem_of_nil in Hin|done|lia].
Qed.

Lemma elem_of_group_keys (df : DataFrame) (t : string) :
  t ∈ group_keys df ↔ t ∈ (text <$> df).
Proof.
  unfold group_keys.
  by rewrite merge_sort_Permutation, elem_of_drop_duplicates.
Qed.

Lemma NoDup_group_keys (df : DataFrame) : NoDup (group_keys df).
Proof.
  unfold group_keys. rewrite merge_sort_Permutation.
  apply NoDup_drop_duplicates.
Qed.

Lemma group_keys_sorted (df : DataFrame) :
  StronglySorted str_lt (group_keys df).
Proof.
  apply StronglySorted_str_lt; [apply NoDup_group_keys|].
  apply StronglySorted_merge_sort; apply _.
Qed.

Lemma label_sets_fmap (df : DataFrame) :
  label_sets df = (λ t, (t, group_labels df t)) <$> group_keys df.
Proof. done. Qed.

Lemma detect_disagreements_unfold set_order (df : DataFrame) :
  detect_disagreements set_order df =
    (λ t, {| rec_text := t;
             rec_labels := set_order (group_labels df t);
             rec_annotators := annotator_id <$> rows_of_text df t;
             rec_confidence_scores :=
               confidence_score <$> rows_of_text df t |})
      <$> disagreed_keys df.
Proof.
  unfold detect_disagreements, disagreed_keys.
  rewrite label_sets_fmap, <- list_fmap_compose, boolean_mask_fmap.
  by rewrite <- list_fmap_compose.
Qed.

Lemma agreed_texts_keys (df : DataFrame) :
  (boolean_mask (label_sets df)
     ((λ e, bool_decide (len e.2 = 1)) <$> label_sets df)).*1
  = agreed_keys df.
Proof.
  rewrite label_sets_fmap, <- list_fmap_compose, boolean_mask_fmap.
  rewrite <- list_fmap_compose. exact (list_fmap_id _).
Qed.

Lemma extract_agreed_unfold (df : DataFrame) :
  extract_agreed df =
    drop_duplicates
      ((λ r, (text r, label r)) <$>
         boolean_mask df ((λ r, bool_decide (text r ∈ agreed_keys df)) <$> df)).
Proof. unfold extract_agreed. cbv zeta. by rewrite agreed_texts_keys. Qed.

Lemma rec_text_detect_disagreements set_order (df : DataFrame) :
  rec_text <$> detect_disagreements set_order df = disagreed_keys df.
Proof.
  rewrite detect_disagreements_unfold, <- list_fmap_compose.
  exact (list_fmap_id _).
Qed.

Lemma elem_of_disagreed_keys (df : DataFrame) (t : string) :
  t ∈ disagreed_keys df ↔ disagreed_text df t.
Proof.
  unfold disagreed_keys.
  rewrite (elem_of_boolean_mask_map
             (λ t, bool_decide (1 < len (group_labels df t)))).
  rewrite bool_decide_eq_true, group_labels_disagreed, elem_of_group_keys.
  split; [tauto|]. intros Hd. split; [|done].
  destruct Hd as (l & _ & (r & Hr & <- & _) & _).
  apply list_elem_of_fmap. by exists r.
Qed.

Lemma elem_of_agreed_keys (df : DataFrame) (t : string) :
  t ∈ agreed_keys df ↔ agreed_text df t.
Proof.
  unfold agreed_keys.
  rewrite (elem_of_boolean_mask_map
             (λ t, bool_decide (len (group_labels df t) = 1))).
  rewrite bool_decide_eq_true, group_labels_agreed, elem_of_group_keys.
  split; [tauto|]. intros Ha. split; [|done].
  destruct Ha as (l & (r & Hr & <- & _) & _).
  apply list_elem_of_fmap. by exists r.
Qed.

Lemma disagreed_keys_sorted (df : DataFrame) :
  StronglySorted str_lt (disagreed_keys df).
Proof.
  eapply StronglySorted_sublist; [|apply group_keys_sorted].
  apply (boolean_mask_map_sublist
           (λ t, bool_decide (1 < len (group_labels df t)))).
Qed.

Lemma NoDup_disagreed_keys (df : DataFrame) : NoDup (disagreed_keys df).
Proof.
  apply (sublist_NoDup _ (group_keys df)); [apply NoDup_group_keys|].
  apply (boolean_mask_map_sublist
           (λ t, bool_decide (1 < len (group_labels df t)))).
Qed.

Lemma elem_of_extract_agreed (df : DataFrame) (t l : string) :
  (t, l) ∈ extract_agreed df ↔ agreed_text df t ∧ has_label df t l.
Proof.
  rewrite extract_agreed_unfold, elem_of_drop_duplicates, list_elem_of_fmap.
  split.
  - intros (r & [= -> ->] & Hr).
    apply (elem_of_boolean_mask_map
             (λ r, bool_decide (text r ∈ agreed_keys df))) in Hr as [Hr Ha].
    apply bool_decide_eq_true, elem_of_agreed_keys in Ha.
    split; [done|]. by exists r.
  - intros [Ha (r & Hr & <- & <-)]. exists r. split; [done|].
    apply (elem_of_boolean_mask_map
             (λ r, bool_decide (text r ∈ agreed_keys df))).
    split; [done|]. by apply bool_decide_eq_true, elem_of_agreed_keys.
Qed.

Lemma elem_of_fst_extract_agreed (df : DataFrame) (t : string) :
  t ∈ (extract_agreed df).*1 ↔ agreed_text df t.
Proof.
  rewrite list_elem_of_fmap. split.
  - intros ([t' l] & -> & Hin). by apply elem_of_extract_agreed in Hin as [? _].
  - intros Ha. pose proof Ha as (l & Hl & _). exists (t, l).
    split; [done|]. by apply elem_of_extract_agreed.
Qed.

Lemma NoDup_fst_extract_agreed (df : DataFrame) :
  NoDup (extract_agreed df).*1.
Proof.
  apply NoDup_fmap_2_strong.
  - intros [t1 l1] [t2 l2] H1 H2. simpl. intros <-.
    apply elem_of_extract_agreed in H1 as [(l & _ & Hall) Hl1].
    apply elem_of_extract_agreed in H2 as [_ Hl2].
    by rewrite (Hall l1), (Hall l2).
  - rewrite extract_agreed_unfold. apply NoDup_drop_duplicates.
Qed.

Lemma extract_agreed_sublist (df : DataFrame) :
  extract_agreed df `sublist_of` (λ r, (text r, label r)) <$> df.
Proof.
  rewrite extract_agreed_unfold.
  etransitivity; [apply drop_duplicates_sublist|].
  apply fmap_sublist.
  apply (boolean_mask_map_sublist
           (λ r, bool_decide (text r ∈ agreed_keys df))).
Qed.

Lemma elem_of_filter_by_confidence (df : DataFrame) (tau : spec_float)
    (r : AnnotationRow) :
  r ∈ filter_by_confidence df tau
  ↔ r ∈ df ∧ float_ge (confidence_score r) tau = true.
Proof.
  unfold filter_by_confidence, copy.
  apply (elem_of_boolean_mask_map (λ r, float_ge (confidence_score r) tau)).
Qed.

Lemma filter_fmap_eq {A B} `{EqDecision B} (f : A → B) (g : B → A)
    (l : list B) (y : B) :
  (∀ x, f (g x) = x) →
  filter (λ a, f a = y) (g <$> l) = g <$> filter (λ x, x = y) l.
Proof.
  intros Hfg. induction l as [|x l IH]; [done|]. rewrite fmap_cons.
  destruct (decide (x = y)) as [Hx|Hx].
  - rewrite !filter_cons_True by (by rewrite ?Hfg). by rewrite IH.
  - rewrite !filter_cons_False by (by rewrite ?Hfg). done.
Qed.

Lemma filter_eq_NoDup {A} `{EqDecision A} (l : list A) (x : A) :
  NoDup l → x ∈ l → filter (λ y, y = x) l = [x].
Proof.
  induction l as [|y l IH]; intros Hnd Hx; [by apply elem_of_nil in Hx|].
  apply NoDup_cons in Hnd as [Hy Hnd].
  destruct (decide (y = x)) as [->|Hne].
  - rewrite filter_cons_True by done. f_equal.
    apply filter_none. by intros z Hz ->.
  - rewrite filter_cons_False by done. apply IH; [done|].
    apply elem_of_cons in Hx as [?|?]; [congruence|done].
Qed.

Lemma NoDup_two_members {A} (l : list A) (a b : A) :
  NoDup l → a ≠ b → (∀ x, x ∈ l ↔ x = a ∨ x = b) → length l = 2.
Proof.
  intros Hnd Hab Hmem.
  assert (l ≡ₚ [a; b]) as ->; [|done].
  apply NoDup_Permutation; [done| |].
  - apply NoDup_cons. split; [by intros ->%list_elem_of_singleton|].
    apply NoDup_singleton.
  - intros x. rewrite Hmem, elem_of_cons, list_elem_of_singleton. done.
Qed.

(** ** Facts about the JSON encoding *)

Lemma string_app_assoc (a b c : string) : (a +:+ b) +:+ c = a +:+ (b +:+ c).
Proof. induction a; simpl; congruence. Qed.

Lemma append_empty_r (a : string) : a +:+ EmptyString = a.
Proof. induction a; simpl; congruence. Qed.

Lemma length_append (a b : string) :
  String.length (a +:+ b) = String.length a + String.length b.
Proof. induction a; simpl; congruence. Qed.

Lemma read_string_escape_char (c : ascii) (tail : string) :
  JSON.read_string (default (str1 c) (ESCAPE_DCT c) +:+ tail) =
    '(v, r) ← JSON.read_string tail; Some (String c v, r).
Proof. destruct c as [[] [] [] [] [] [] [] []]; reflexivity. Qed.

Lemma read_string_escape (s tail : string) :
  JSON.read_string (escape s +:+ String QUOTE tail) = Some (s, tail).
Proof.
  induction s as [|c s IH]; [done|]. simpl escape.
  by rewrite string_app_assoc, read_string_escape_char, IH.
Qed.

Lemma expect_here (n : N) (c : ascii) (s : string) :
  JSON.is_ws c = false → ord c = n → JSON.expect n (String c s) = Some s.
Proof.
  intros Hc <-. unfold JSON.expect. simpl. by rewrite Hc, N.eqb_refl.
Qed.

Lemma expect_skip (n : N) (c : ascii) (s : string) :
  JSON.is_ws c = true → JSON.expect n (String c s) = JSON.expect n s.
Proof. intros Hc. unfold JSON.expect. simpl. by rewrite Hc. Qed.

Lemma read_members_last (fuel : nat) (k v tail : string) :
  JSON.read_members (S fuel)
    (String QUOTE (member_tail k v (String "}" tail)))
  = Some ([(k, v)], tail).
Proof.
  unfold member_tail. simpl.
  rewrite read_string_escape. simpl.
  by rewrite read_string_escape.
Qed.

Lemma read_members_more (fuel : nat) (k v rest : string) :
  JSON.read_members (S fuel)
    (String QUOTE (member_tail k v (", " +:+ rest)))
  = '(ms, r) ← JSON.read_members fuel rest; Some ((k, v) :: ms, r).
Proof.
  unfold member_tail. simpl.
  rewrite read_string_escape. simpl.
  rewrite read_string_escape. simpl.
  destruct fuel as [|fuel]; [done|]. simpl.
  by rewrite (expect_skip 34 " ") by done.
Qed.

Lemma json_dumps_shape (text label : string) :
  json_dumps text label =
    String "{" (String QUOTE (member_tail "text" text
       (", " +:+ String QUOTE (member_tail "label" label "}")))).
Proof.
  unfold json_dumps, encode_basestring, member_tail, str1.
  generalize (escape text), (escape label). intros X Y.
  simpl. by rewrite !string_app_assoc.
Qed.

Lemma length_member_tail (k v rest : string) :
  ∃ n, String.length (member_tail k v rest) = S n.
Proof.
  unfold member_tail. rewrite length_append. simpl.
  rewrite Nat.add_succ_r. eauto.
Qed.

(** Reading back a dumped pair gives an object with exactly the members
    [text] and [label], holding the two strings. *)
Lemma read_object_json_dumps (text label : string) :
  JSON.read_object (json_dumps text label)
  = Some [("text", text); ("label", label)].
Proof.
  rewrite json_dumps_shape. unfold JSON.read_object.
  rewrite (expect_here 123 "{") by done.
  cbn [mbind option_bind String.length].
  destruct (length_member_tail "text" text
    (", " +:+ String QUOTE (member_tail "label" label "}"))) as [n ->].
  by rewrite read_members_more, read_members_last.
Qed.

Lemma has_char_append (n : N) (a b : string) :
  has_char n (a +:+ b) = has_char n a || has_char n b.
Proof.
  induction a as [|c a IH]; simpl; [done|]. by rewrite IH, orb_assoc.
Qed.

Lemma has_char_LF_escape_char (c : ascii) :
  has_char 10 (default (str1 c) (ESCAPE_DCT c)) = false.
Proof. destruct c as [[] [] [] [] [] [] [] []]; reflexivity. Qed.

Lemma has_char_LF_escape (s : string) : has_char 10 (escape s) = false.
Proof.
  induction s as [|c s IH]; [done|]. simpl escape.
  by rewrite has_char_append, has_char_LF_escape_char, IH.
Qed.

Lemma has_char_LF_json_dumps (text label : string) :
  has_char 10 (json_dumps text label) = false.
Proof.
  rewrite json_dumps_shape. unfold member_tail. simpl.
  rewrite !has_char_append. simpl. rewrite !has_char_append. simpl.
  by rewrite !has_char_LF_escape.
Qed.

Lemma non_ascii_append (a b : string) :
  non_ascii (a +:+ b) = non_ascii a +:+ non_ascii b.
Proof.
  induction a as [|c a IH]; simpl; [done|].
  destruct (128 <=? ord c)%N; simpl; by rewrite IH.
Qed.

Lemma non_ascii_escape_char (c : ascii) :
  non_ascii (default (str1 c) (ESCAPE_DCT c)) = non_ascii (str1 c).
Proof. destruct c as [[] [] [] [] [] [] [] []]; reflexivity. Qed.

Lemma non_ascii_escape (s : string) : non_ascii (escape s) = non_ascii s.
Proof.
  induction s as [|c s IH]; [done|]. simpl escape.
  rewrite non_ascii_append, non_ascii_escape_char, IH. simpl.
  by destruct (128 <=? ord c)%N.
Qed.

Lemma non_ascii_json_dumps (text label : string) :
  non_ascii (json_dumps text label) = non_ascii text +:+ non_ascii label.
Proof.
  rewrite json_dumps_shape. unfold member_tail. simpl.
  rewrite !non_ascii_append. simpl. rewrite !non_ascii_append. simpl.
  rewrite !non_ascii_escape. by rewrite append_empty_r.
Qed.

Lemma ESCAPE_DCT_non_ascii (c : ascii) :
  (128 <=? ord c)%N = true → ESCAPE_DCT c = None.
Proof. destruct c as [[] [] [] [] [] [] [] []]; (discriminate || reflexivity). Qed.

(** A string without control characters, quotation mark or reverse
    solidus is written as it is. *)
Lemma escape_plain (s : string) :
  (∀ c, has_char (ord c) s = true → ESCAPE_DCT c = None) → escape s = s.
Proof.
  induction s as [|c s IH]; intros Hs; [done|]. simpl.
  rewrite (Hs c) by (simpl; by rewrite N.eqb_refl). simpl. f_equal.
  apply IH. intros d Hd. apply Hs. simpl. by rewrite Hd, orb_true_r.
Qed.

(** ** Facts about lines *)

Lemma lines_terminated (l rest : string) :
  has_char 10 l = false → lines (l +:+ String LF rest) = l :: lines rest.
Proof.
  induction l as [|c l IH]; simpl; [done|].
  intros [Hc Hl]%orb_false_iff. by rewrite Hc, IH.
Qed.

Lemma lines_jsonl (df : list (string * string)) :
  lines (jsonl df) = (λ p, json_dumps p.1 p.2) <$> df.
Proof.
  induction df as [|[t l] df IH]; [done|].
  change (jsonl ((t, l) :: df))
    with (json_dumps t l +:+ String LF (jsonl df)).
  rewrite lines_terminated by apply has_char_LF_json_dumps.
  by rewrite IH.
Qed.

(** ** Facts about the exporter and the run *)

Lemma for_each_write (path : string) (df : list (string * string))
    (fs : gmap string string) (uw : gset string) (acc : string)
    (lg : list log_message) (cs : list string) :
  for_each df (λ '(text, label),
      f_write path (json_dumps text label +:+ str1 LF))
    {| files := <[path := acc]> fs; unwritable := uw;
       log_file := lg; console_stream := cs |}
  = (Some tt,
     {| files := <[path := acc +:+ jsonl df]> fs; unwritable := uw;
        log_file := lg; console_stream := cs |}).
Proof.
  revert acc. induction df as [|[t l] df IH]; intros acc.
  - simpl. by rewrite append_empty_r.
  - change (jsonl ((t, l) :: df))
      with (json_dumps t l +:+ String LF (jsonl df)).
    cbn [for_each]. unfold mbind, IO_bind, f_write at 1.
    cbn [files unwritable log_file console_stream].
    rewrite alter_insert_eq, IH.
    by rewrite !string_app_assoc.
Qed.

(** An export to a destination that can be opened completes and replaces
    the file. *)
Lemma export_jsonl_run (df : list (string * string)) (path : string)
    (w : World) :
  path ∉ unwritable w →
  export_jsonl df path w = (Some tt, with_file path (jsonl df) w).
Proof.
  intros Hw. unfold export_jsonl, mbind, IO_bind, open_w, with_file.
  rewrite bool_decide_eq_false_2 by done.
  by rewrite for_each_write.
Qed.

(** An export to a destination that cannot be opened raises and leaves
    the world as it was. *)
Lemma export_jsonl_raises (df : list (string * string)) (path : string)
    (w : World) :
  path ∈ unwritable w → export_jsonl df path w = (None, w).
Proof.
  intros Hw. unfold export_jsonl, mbind, IO_bind, open_w.
  by rewrite bool_decide_eq_true_2 by done.
Qed.

Lemma for_each_logging (ds : list DisagreementRecord) (w : World) :
  for_each ds (λ rec, logging_info (RecordDump rec)) w
  = (Some tt,
     {| files := files w; unwritable := unwritable w;
        log_file := log_file w ++ (RecordDump <$> ds);
        console_stream := console_stream w |}).
Proof.
  revert w. induction ds as [|d ds IH]; intros [fs uw lg cs].
  - simpl. by rewrite app_nil_r.
  - cbn [for_each]. unfold mbind, IO_bind, logging_info at 1.
    rewrite IH. simpl. by rewrite <- app_assoc.
Qed.

(** The reporting step of [main]. *)
Lemma report_run (ds : list DisagreementRecord) (w : World) :
  match ds with
  | _ :: _ =>
      logging_info (Message "Disagreed samples:") ;;
      for_each ds (λ rec, logging_info (RecordDump rec))
  | [] => logging_info (Message "Disagreed samples: 0")
  end w
  = (Some tt,
     {| files := files w; unwritable := unwritable w;
        log_file := log_file w ++ report_entries ds;
        console_stream := console_stream w |}).
Proof.
  destruct ds as [|d ds]; [done|].
  unfold mbind, IO_bind, logging_info at 1. rewrite for_each_logging.
  cbn [files unwritable log_file console_stream report_entries].
  by rewrite <- app_assoc.
Qed.

Lemma getitem_run (c : string) (df : Table) (w : World) :
  getitem c df w = (if bool_decide (c ∈ columns df) then Some tt else None, w).
Proof. unfold getitem. by case_bool_decide. Qed.

Lemma has_columns_cons (c : string) (cs : list string) (df : Table) :
  has_columns (c :: cs) df ↔ c ∈ columns df ∧ has_columns cs df.
Proof. unfold has_columns. by rewrite Forall_cons. Qed.

Lemma has_columns_nil (df : Table) : has_columns [] df.
Proof. apply Forall_nil_2. Qed.

Lemma has_columns_sublist (cs cs' : list string) (df : Table) :
  cs `sublist_of` cs' → has_columns cs' df → has_columns cs df.
Proof.
  unfold has_columns. rewrite !Forall_forall. intros Hs Hall c Hc.
  apply Hall. by eapply elem_of_sublist.
Qed.

Lemma has_columns_2 (c1 c2 : string) (df : Table) :
  has_columns [c1; c2] df ↔ c1 ∈ columns df ∧ c2 ∈ columns df.
Proof.
  rewrite !has_columns_cons. split; [tauto|].
  intros [? ?]. split; [done|]. split; [done|]. apply has_columns_nil.
Qed.

Lemma Frame_filter_by_confidence_run (df : Table) (tau : spec_float)
    (w : World) :
  Frame.filter_by_confidence df tau w
  = (if bool_decide ("confidence_score" ∈ columns df)
     then Some {| columns := columns df;
                  rows := filter_by_confidence (rows df) tau |}
     else None, w).
Proof.
  unfold Frame.filter_by_confidence, mbind, IO_bind. rewrite getitem_run.
  by case_bool_decide.
Qed.

Lemma detect_disagreements_nil (set_order : PySet → list string)
    (df : DataFrame) :
  detect_disagreements set_order df = [] ↔ disagreed_keys df = [].
Proof.
  rewrite <- (rec_text_detect_disagreements set_order). split.
  - by intros ->.
  - apply fmap_nil_inv.
Qed.

Lemma Frame_detect_disagreements_run (set_order : PySet → list string)
    (df : Table) (w : World) :
  Frame.detect_disagreements set_order df w
  = (if bool_decide
          (has_columns ["text"; "label"] df
           ∧ (disagreed_keys (rows df) = []
              ∨ has_columns ["annotator_id"; "confidence_score"] df))
     then Some (detect_disagreements set_order (rows df))
     else None, w).
Proof.
  unfold Frame.detect_disagreements, mbind, IO_bind.
  rewrite !getitem_run.
  destruct (bool_decide ("text" ∈ columns df)) eqn:Ht.
  2:{ apply bool_decide_eq_false in Ht.
      rewrite bool_decide_eq_false_2; [done|].
      rewrite has_columns_2. tauto. }
  apply bool_decide_eq_true in Ht.
  destruct (bool_decide ("label" ∈ columns df)) eqn:Hl.
  2:{ apply bool_decide_eq_false in Hl.
      rewrite bool_decide_eq_false_2; [done|].
      rewrite has_columns_2. tauto. }
  apply bool_decide_eq_true in Hl.
  cbv zeta.
  destruct (detect_disagreements set_order (rows df)) as [|d ds] eqn:Hd.
  { apply detect_disagreements_nil in Hd.
    rewrite bool_decide_eq_true_2; [done|].
    rewrite has_columns_2. tauto. }
  assert (disagreed_keys (rows df) ≠ []) as Hne.
  { intros Hk. apply (detect_disagreements_nil set_order) in Hk.
    by rewrite Hk in Hd. }
  rewrite !getitem_run.
  destruct (bool_decide ("annotator_id" ∈ columns df)) eqn:Ha.
  2:{ apply bool_decide_eq_false in Ha.
      rewrite bool_decide_eq_false_2; [done|].
      rewrite !has_columns_2. tauto. }
  apply bool_decide_eq_true in Ha.
  destruct (bool_decide ("confidence_score" ∈ columns df)) eqn:Hc.
  2:{ apply bool_decide_eq_false in Hc.
      rewrite bool_decide_eq_false_2; [done|].
      rewrite !has_columns_2. tauto. }
  apply bool_decide_eq_true in Hc.
  rewrite bool_decide_eq_true_2; [done|].
  rewrite !has_columns_2. tauto.
Qed.

Lemma Frame_extract_agreed_run (df : Table) (w : World) :
  Frame.extract_agreed df w
  = (if bool_decide (has_columns ["text"; "label"] df)
     then Some (extract_agreed (rows df)) else None, w).
Proof.
  unfold Frame.extract_agreed, mbind, IO_bind. rewrite !getitem_run.
  destruct (bool_decide ("text" ∈ columns df)) eqn:Ht.
  2:{ apply bool_decide_eq_false in Ht.
      rewrite bool_decide_eq_false_2; [done|].
      rewrite has_columns_2. tauto. }
  apply bool_decide_eq_true in Ht.
  destruct (bool_decide ("label" ∈ columns df)) eqn:Hl.
  2:{ apply bool_decide_eq_false in Hl.
      rewrite bool_decide_eq_false_2; [done|].
      rewrite has_columns_2. tauto. }
  apply bool_decide_eq_true in Hl.
  rewrite bool_decide_eq_true_2; [done|].
  rewrite has_columns_2. tauto.
Qed.

(** The run in closed form: the outcome and the world it leaves are
    those of the stage at which it stops. *)
Lemma main_spec (read_csv : string → option Table)
    (set_order : PySet → list string) (w : World) :
  main read_csv set_order w
  = (if bool_decide
          (run_stage (files w !! FILE_RAW ≫= read_csv) w = Completed)
     then Some tt else None,
     world_at set_order (run_stage (files w !! FILE_RAW ≫= read_csv) w)
       (loaded_rows (files w !! FILE_RAW ≫= read_csv)) w).
Proof.
  destruct w as [fs uw lg cs].
  unfold main. unfold mbind at 1 2, IO_bind at 1 2.
  unfold console_info at 1, load_annotations.
  cbn [files unwritable log_file console_stream].
  destruct (fs !! FILE_RAW) as [bytes|] eqn:Hfile; [|done].
  cbn [mbind option_bind].
  destruct (read_csv bytes) as [df|] eqn:Hparse; [|done].
  unfold mbind at 1 2, IO_bind at 1 2, console_info at 1.
  cbn [files unwritable log_file console_stream].
  rewrite Frame_filter_by_confidence_run. unfold run_stage.
  destruct (bool_decide ("confidence_score" ∈ columns df)) eqn:Hc.
  2:{ unfold world_at, loaded_rows. simpl. by rewrite <- !app_assoc. }
  unfold mbind at 1 2 3, IO_bind at 1 2 3, console_info at 1 2.
  cbn [files unwritable log_file console_stream columns rows].
  rewrite Frame_detect_disagreements_run.
  cbn [columns rows].
  change (bool_decide
            (has_columns ["text"; "label"]
               {| columns := columns df;
                  rows := filter_by_confidence (rows df) CONF_THRESHOLD |}
             ∧ (disagreed_keys (filter_by_confidence (rows df) CONF_THRESHOLD)
                = []
                ∨ has_columns ["annotator_id"; "confidence_score"]
                    {| columns := columns df;
                       rows := filter_by_confidence (rows df)
                                 CONF_THRESHOLD |})))
    with (bool_decide (analysable df)).
  destruct (bool_decide (analysable df)) eqn:Ha.
  2:{ unfold world_at, loaded_rows. simpl. by rewrite <- !app_assoc. }
  apply bool_decide_eq_true in Ha. destruct Ha as [Htl _].
  unfold mbind at 1 2, IO_bind at 1 2. rewrite report_run.
  cbn [files unwritable log_file console_stream].
  rewrite Frame_extract_agreed_run.
  rewrite (bool_decide_eq_true_2 (has_columns ["text"; "label"] _))
    by exact Htl.
  unfold mbind at 1 2 3, IO_bind at 1 2 3, console_info at 1 2.
  cbn [files unwritable log_file console_stream columns rows].
  destruct (bool_decide (FILE_OUT ∈ uw)) eqn:Hw.
  - apply bool_decide_eq_true in Hw.
    rewrite export_jsonl_raises by done.
    unfold world_at, loaded_rows. simpl. by rewrite <- !app_assoc.
  - apply bool_decide_eq_false in Hw.
    rewrite export_jsonl_run by done.
    unfold console_info, with_file, world_at, loaded_rows, run_log.
    simpl. by rewrite <- !app_assoc.
Qed.

(** The stage of a run depends on the world only through the input file
    and the destination. *)
Lemma run_stage_completed (loaded : option Table) (w : World) :
  run_stage loaded w = Completed
  ↔ ∃ df, loaded = Some df ∧ "confidence_score" ∈ columns df
          ∧ analysable df ∧ FILE_OUT ∉ unwritable w.
Proof.
  unfold run_stage. destruct loaded as [df|].
  - split.
    + intros Hs. exists df. repeat case_bool_decide; try done.
    + intros (df' & Heq & Hc & Ha & Hw). injection Heq as ->.
      by rewrite (bool_decide_eq_true_2 _ Hc), (bool_decide_eq_true_2 _ Ha),
        (bool_decide_eq_false_2 _ Hw).
  - split; [done|]. by intros (df' & ? & _).
Qed.

Lemma analysable_full (df : Table) :
  has_columns REQUIRED_COLUMNS df → analysable df.
Proof.
  intros Hall. split.
  - eapply has_columns_sublist; [|exact Hall].
    unfold REQUIRED_COLUMNS. by repeat constructor.
  - right. eapply has_columns_sublist; [|exact Hall].
    unfold REQUIRED_COLUMNS. by repeat constructor.
Qed.

(** A run that loads a table with the columns it needs and can open the
    destination completes. *)
Lemma main_completes (read_csv : string → option Table)
    (set_order : PySet → list string) (w : World)
    (bytes : string) (df_raw : Table) :
  files w !! FILE_RAW = Some bytes → read_csv bytes = Some df_raw →
  "confidence_score" ∈ columns df_raw → analysable df_raw →
  FILE_OUT ∉ unwritable w →
  main read_csv set_order w
  = (Some tt, world_at set_order Completed (rows df_raw) w).
Proof.
  intros Hfile Hparse Hc Ha Hw. rewrite main_spec, Hfile. simpl.
  rewrite Hparse.
  assert (run_stage (Some df_raw) w = Completed) as ->.
  { apply run_stage_completed. by exists df_raw. }
  done.
Qed.

(** The stage, the log and the console depend on the rows only through
    the filtered table. *)
Lemma run_stage_ext (df df' : Table) (w w' : World) :
  columns df = columns df' →
  filter_by_confidence (rows df) CONF_THRESHOLD
  = filter_by_confidence (rows df') CONF_THRESHOLD →
  unwritable w = unwritable w' →
  run_stage (Some df) w = run_stage (Some df') w'.
Proof.
  intros Hcols Hrows Hw. unfold run_stage.
  rewrite (bool_decide_ext ("confidence_score" ∈ columns df)
             ("confidence_score" ∈ columns df')) by by rewrite Hcols.
  rewrite (bool_decide_ext (analysable df) (analysable df'))
    by (unfold analysable, has_columns; by rewrite Hcols, Hrows).
  by rewrite (bool_decide_ext (FILE_OUT ∈ unwritable w)
                (FILE_OUT ∈ unwritable w')) by by rewrite Hw.
Qed.

Lemma console_at_ext (s : stage) (df df' : DataFrame) :
  filter_by_confidence df CONF_THRESHOLD
  = filter_by_confidence df' CONF_THRESHOLD →
  console_at s df = console_at s df'.
Proof.
  intros Heq. unfold console_at, progress_before, progress_after.
  by rewrite Heq.
Qed.

Lemma log_at_ext (set_order : PySet → list string) (s : stage)
    (df df' : DataFrame) :
  filter_by_confidence df CONF_THRESHOLD
  = filter_by_confidence df' CONF_THRESHOLD →
  log_at set_order s df = log_at set_order s df'.
Proof.
  intros Heq.
  unfold log_at, run_log, console_at, progress_before, progress_after.
  by rewrite Heq.
Qed.

(** Every console message of a run is among its log entries, in order. *)
Lemma log_at_console (set_order : PySet → list string) (s : stage)
    (df_raw : DataFrame) :
  Message <$> console_at s df_raw `sublist_of` log_at set_order s df_raw.
Proof.
  destruct s; try reflexivity.
  - unfold log_at, console_at. rewrite fmap_app.
    apply sublist_app; [done|]. by apply sublist_inserts_l.
  - unfold log_at, console_at, run_log. rewrite fmap_app.
    apply sublist_app; [done|]. by apply sublist_inserts_l.
Qed.

(** Only a completed run changes a file, and only the export file. *)
Lemma files_world_at (set_order : PySet → list string) (s : stage)
    (df_raw : DataFrame) (w : World) (q : string) :
  q ≠ FILE_OUT →
  files (world_at set_order s df_raw w) !! q = files w !! q.
Proof.
  intros Hq. unfold world_at. cbn [files].
  destruct s; try done. by rewrite lookup_insert_ne.
Qed.


(** The run on a world whose input file holds [bytes]. *)
Lemma main_with_file (read_csv : string → option Table)
    (set_order : PySet → list string) (w : World)
    (bytes : string) (df : Table) :
  read_csv bytes = Some df →
  main read_csv set_order (with_file FILE_RAW bytes w)
  = (if bool_decide
          (run_stage (Some df) (with_file FILE_RAW bytes w) = Completed)
     then Some tt else None,
     world_at set_order (run_stage (Some df) (with_file FILE_RAW bytes w))
       (rows df) (with_file FILE_RAW bytes w)).
Proof.
  intros Hparse.
  assert (files (with_file FILE_RAW bytes w) !! FILE_RAW ≫= read_csv
          = Some df) as Hload.
  { unfold with_file. cbn [files]. by rewrite lookup_insert_eq. }
  by rewrite main_spec, Hload.
Qed.

Lemma has_columns_required (df : Table) :
  has_columns REQUIRED_COLUMNS df
  → "text" ∈ columns df ∧ "label" ∈ columns df
    ∧ "annotator_id" ∈ columns df ∧ "confidence_score" ∈ columns df.
Proof.
  unfold REQUIRED_COLUMNS. rewrite !has_columns_cons. tauto.
Qed.


(** The stage depends on the world only through the destination. *)
Lemma run_stage_world (loaded : option Table) (w w' : World) :
  unwritable w = unwritable w' → run_stage loaded w = run_stage loaded w'.
Proof.
  intros Hw. destruct loaded as [df|]; [|done]. by apply run_stage_ext.
Qed.

(** ** Facts about the object store *)

Lemma alloc_fresh (rows : DataFrame) (h : gmap nat DataFrame) :
  (Store.alloc rows h).1 ∉ dom h.
Proof. unfold Store.alloc. simpl. apply is_fresh. Qed.

Lemma alloc_lookup (rows : DataFrame) (h : gmap nat DataFrame) :
  (Store.alloc rows h).2 !! (Store.alloc rows h).1 = Some rows.
Proof. unfold Store.alloc. simpl. apply lookup_insert_eq. Qed.

Lemma alloc_frame (rows : DataFrame) (h : gmap nat DataFrame) (r : nat) :
  r ∈ dom h → (Store.alloc rows h).2 !! r = h !! r.
Proof.
  intros Hr. unfold Store.alloc. simpl. apply lookup_insert_ne.
  intros <-. by apply (is_fresh (dom h)).
Qed.

Lemma alloc_dom (rows : DataFrame) (h : gmap nat DataFrame) (r : nat) :
  r ∈ dom h → r ∈ dom (Store.alloc rows h).2.
Proof.
  intros Hr. apply elem_of_dom. rewrite alloc_frame by done.
  by apply elem_of_dom.
Qed.

Lemma boolean_mask_app {A} (p : A → bool) (l1 l2 : list A) :
  boolean_mask (l1 ++ l2) (p <$> l1 ++ l2)
  = boolean_mask l1 (p <$> l1) ++ boolean_mask l2 (p <$> l2).
Proof.
  induction l1 as [|x l1 IH]; [done|].
  rewrite <- app_comm_cons, !fmap_cons. cbn [boolean_mask].
  destruct (p x); by rewrite IH.
Qed.

Lemma filter_by_confidence_app (df1 df2 : DataFrame) (tau : spec_float) :
  filter_by_confidence (df1 ++ df2) tau
  = filter_by_confidence df1 tau ++ filter_by_confidence df2 tau.
Proof. unfold filter_by_confidence, copy. apply boolean_mask_app. Qed.

Lemma float_ge_nan (x tau : spec_float) :
  is_nan x = true → float_ge x tau = false.
Proof. destruct x; try discriminate. intros _. apply float_ge_nan_l. Qed.

Lemma FILE_RAW_OUT : FILE_OUT ≠ FILE_RAW.
Proof. done. Qed.

(** ** Further facts about float comparison and the filter *)

Lemma SFcompare_finite_pos (m1 m2 : positive) (e1 e2 : Z) :
  SFcompare (S754_finite false m1 e1) (S754_finite false m2 e2)
  = Some match (e1 ?= e2)%Z with
         | Lt => Lt | Gt => Gt | Eq => (m1 ?= m2)%positive
         end.
Proof. done. Qed.

Lemma SFcompare_finite_neg (m1 m2 : positive) (e1 e2 : Z) :
  SFcompare (S754_finite true m1 e1) (S754_finite true m2 e2)
  = Some match (e1 ?= e2)%Z with
         | Lt => Gt | Gt => Lt | Eq => CompOpp (m1 ?= m2)%positive
         end.
Proof. done. Qed.

Lemma SFleb_trans (x y z : spec_float) :
  SFleb x y = true → SFleb y z = true → SFleb x z = true.
Proof.
  unfold SFleb.
  destruct x as [sx|sx| |sx mx ex], y as [sy|sy| |sy my ey],
    z as [sz|sz| |sz mz ez];
    try (simpl; done);
    try (destruct sx, sy, sz; simpl; done);
    try (destruct sx, sy; simpl; done);
    try (destruct sx, sz; simpl; done);
    try (destruct sy, sz; simpl; done);
    try (destruct sx; simpl; done);
    try (destruct sy; simpl; done);
    try (destruct sz; simpl; done).
  destruct sx, sy, sz; try (simpl; done);
    rewrite ?SFcompare_finite_pos, ?SFcompare_finite_neg;
    destruct (Z.compare_spec ex ey), (Z.compare_spec ey ez),
      (Z.compare_spec ex ez); try lia; try done;
    destruct (Pos.compare_spec mx my), (Pos.compare_spec my mz),
      (Pos.compare_spec mx mz); simpl; try lia; try done.
Qed.

Lemma float_ge_trans (x y z : spec_float) :
  float_ge x y = true → float_ge y z = true → float_ge x z = true.
Proof. unfold float_ge. intros Hxy Hyz. by apply (SFleb_trans z y x). Qed.

Lemma boolean_mask_filter {A} (p : A → bool) (l : list A) :
  boolean_mask l (p <$> l) = filter (λ x, p x = true) l.
Proof.
  induction l as [|x l IH]; [done|]. rewrite fmap_cons. cbn [boolean_mask].
  destruct (p x) eqn:Hp.
  - rewrite filter_cons_True by done. by rewrite IH.
  - rewrite filter_cons_False by (by rewrite Hp). done.
Qed.

Lemma filter_by_confidence_filter (df : DataFrame) (tau : spec_float) :
  filter_by_confidence df tau
  = filter (λ r, float_ge (confidence_score r) tau = true) df.
Proof.
  unfold filter_by_confidence, copy.
  apply (boolean_mask_filter (λ r, float_ge (confidence_score r) tau)).
Qed.

(** ** Further facts about the run *)

Lemma dumped_records_app (xs ys : list log_message) :
  dumped_records (xs ++ ys) = dumped_records xs ++ dumped_records ys.
Proof. unfold dumped_records. apply omap_app. Qed.

Lemma dumped_records_Message (ss : list string) :
  dumped_records (Message <$> ss) = [].
Proof. induction ss as [|s ss IH]; [done|]. exact IH. Qed.

Lemma dumped_records_RecordDump (ds : list DisagreementRecord) :
  dumped_records (RecordDump <$> ds) = ds.
Proof.
  induction ds as [|d ds IH]; [done|].
  unfold dumped_records in *. rewrite fmap_cons. cbn [omap list_omap].
  by rewrite IH.
Qed.

Lemma not_elem_of_RecordDump (m : string) (ds : list DisagreementRecord) :
  Message m ∉ RecordDump <$> ds.
Proof. by intros (d & ? & _)%list_elem_of_fmap. Qed.

(** ** Further facts about the analyzer *)

Lemma boolean_mask_complement {A} (p q : A → bool) (l : list A) :
  (∀ x, x ∈ l → q x = negb (p x)) →
  length (boolean_mask l (p <$> l)) + length (boolean_mask l (q <$> l))
  = length l.
Proof.
  induction l as [|x l IH]; intros Hpq; [done|].
  rewrite !fmap_cons. cbn [boolean_mask].
  rewrite (Hpq x) by apply list_elem_of_here.
  assert (∀ y, y ∈ l → q y = negb (p y)) as Hl
    by (intros y Hy; apply Hpq; by apply list_elem_of_further).
  specialize (IH Hl). destruct (p x); simpl; lia.
Qed.

Lemma group_labels_nonempty (df : DataFrame) (t : string) :
  t ∈ group_keys df → (1 ≤ len (group_labels df t))%nat.
Proof.
  intros Ht%elem_of_group_keys.
  destruct (agreed_or_disagreed df t Ht) as [Ha|Hd].
  - apply group_labels_agreed in Ha. lia.
  - apply group_labels_disagreed in Hd. lia.
Qed.

Lemma length_agreed_disagreed_keys (df : DataFrame) :
  length (agreed_keys df) + length (disagreed_keys df)
  = length (group_keys df).
Proof.
  unfold agreed_keys, disagreed_keys.
  apply (boolean_mask_complement
           (λ t, bool_decide (len (group_labels df t) = 1))
           (λ t, bool_decide (1 < len (group_labels df t)))).
  intros t Ht. pose proof (group_labels_nonempty df t Ht).
  repeat case_bool_decide; simpl; (done || lia).
Qed.

Lemma NoDup_agreed_keys (df : DataFrame) : NoDup (agreed_keys df).
Proof.
  apply (sublist_NoDup _ (group_keys df)); [apply NoDup_group_keys|].
  apply (boolean_mask_map_sublist
           (λ t, bool_decide (len (group_labels df t) = 1))).
Qed.

Lemma fst_extract_agreed_Permutation (df : DataFrame) :
  (extract_agreed df).*1 ≡ₚ agreed_keys df.
Proof.
  apply NoDup_Permutation.
  - apply NoDup_fst_extract_agreed.
  - apply NoDup_agreed_keys.
  - intros t. by rewrite elem_of_fst_extract_agreed, elem_of_agreed_keys.
Qed.

Lemma has_label_Permutation (df df' : DataFrame) (t l : string) :
  df ≡ₚ df' → has_label df t l ↔ has_label df' t l.
Proof.
  intros Hp. unfold has_label. split; intros (r & Hr & ?); exists r.
  - by rewrite <- Hp.
  - by rewrite Hp.
Qed.

Lemma disagreed_text_Permutation (df df' : DataFrame) (t : string) :
  df ≡ₚ df' → disagreed_text df t ↔ disagreed_text df' t.
Proof.
  intros Hp. unfold disagreed_text.
  by setoid_rewrite (has_label_Permutation df df' t _ Hp).
Qed.

Lemma agreed_text_Permutation (df df' : DataFrame) (t : string) :
  df ≡ₚ df' → agreed_text df t ↔ agreed_text df' t.
Proof.
  intros Hp. unfold agreed_text.
  by setoid_rewrite (has_label_Permutation df df' t _ Hp).
Qed.

Lemma dedup_from_NoDup {A} `{EqDecision A} (seen l : list A) :
  NoDup l → (∀ x, x ∈ l → x ∉ seen) → dedup_from seen l = l.
Proof.
  revert seen. induction l as [|x l IH]; intros seen Hnd Hs; [done|].
  apply NoDup_cons in Hnd as [Hx Hnd].
  rewrite dedup_from_cons, bool_decide_eq_false_2
    by (apply Hs, list_elem_of_here).
  f_equal. apply IH; [done|]. intros y Hy [->|Hin]%elem_of_cons; [done|].
  by apply (Hs y); [apply list_elem_of_further|].
Qed.

Lemma drop_duplicates_NoDup {A} `{EqDecision A} (l : list A) :
  NoDup l → drop_duplicates l = l.
Proof.
  intros Hnd. rewrite drop_duplicates_dedup.
  apply dedup_from_NoDup; [done|]. intros x _. apply not_elem_of_nil.
Qed.

Lemma boolean_mask_all {A} (p : A → bool) (l : list A) :
  (∀ x, x ∈ l → p x = true) → boolean_mask l (p <$> l) = l.
Proof.
  induction l as [|x l IH]; intros Hp; [done|].
  rewrite fmap_cons. cbn [boolean_mask].
  rewrite (Hp x) by apply list_elem_of_here. f_equal.
  apply IH. intros y Hy. apply Hp. by apply list_elem_of_further.
Qed.

Lemma no_members_nil {A} (l : list A) : (∀ x, x ∉ l) → l = [].
Proof.
  destruct l as [|x l]; [done|]. intros H.
  by destruct (H x (list_elem_of_here x l)).
Qed.

Lemma agreed_text_unique_row (df : DataFrame) (r : AnnotationRow) :
  NoDup (text <$> df) → r ∈ df → agreed_text df (text r).
Proof.
  intros Hnd Hr. exists (label r). split; [by exists r|].
  intros l' (r' & Hr' & Ht & <-).
  assert (r' = r) as ->; [|done].
  revert Hnd Hr Hr' Ht. clear. induction df as [|x df IH]; intros Hnd Hr Hr' Ht.
  { by apply elem_of_nil in Hr. }
  rewrite fmap_cons in Hnd. apply NoDup_cons in Hnd as [Hx Hnd].
  apply elem_of_cons in Hr as [->|Hr], Hr' as [->|Hr']; try done.
  - exfalso. apply Hx. rewrite <- Ht. apply list_elem_of_fmap. by exists r'.
  - exfalso. apply Hx. rewrite Ht. apply list_elem_of_fmap. by exists r.
  - by apply IH.
Qed.

(** ** Duplicate removal under maps and masks *)

Lemma dedup_from_fmap_inj {A B} `{EqDecision A, EqDecision B} (f : A → B)
    (seen l : list A) :
  (∀ x y, x ∈ l ++ seen → y ∈ l ++ seen → f x = f y → x = y) →
  f <$> dedup_from seen l = dedup_from (f <$> seen) (f <$> l).
Proof.
  revert seen. induction l as [|x l IH]; intros seen Hinj; [done|].
  rewrite fmap_cons, !dedup_from_cons.
  assert (bool_decide (f x ∈ f <$> seen) = bool_decide (x ∈ seen)) as ->.
  { apply bool_decide_ext. rewrite list_elem_of_fmap. split.
    - intros (y & Hxy & Hy). rewrite (Hinj x y); [done| | |done].
      + apply elem_of_app. left. apply list_elem_of_here.
      + apply elem_of_app. by right.
    - intros Hx. by exists x. }
  assert (f <$> dedup_from (x :: seen) l
          = dedup_from (f x :: (f <$> seen)) (f <$> l)) as Hrec.
  { rewrite <- fmap_cons. apply IH. intros y z Hy Hz.
    apply Hinj.
    - apply elem_of_app in Hy as [Hy|[->|Hy]%elem_of_cons];
        rewrite elem_of_app, elem_of_cons; auto.
    - apply elem_of_app in Hz as [Hz|[->|Hz]%elem_of_cons];
        rewrite elem_of_app, elem_of_cons; auto. }
  case_bool_decide; [done|]. by rewrite fmap_cons, Hrec.
Qed.

Lemma dedup_from_mask {A} `{EqDecision A} (p : A → bool)
    (seen1 seen2 l : list A) :
  (∀ x, p x = true → (x ∈ seen1 ↔ x ∈ seen2)) →
  dedup_from seen1 (boolean_mask l (p <$> l))
  = boolean_mask (dedup_from seen2 l) (p <$> dedup_from seen2 l).
Proof.
  revert seen1 seen2. induction l as [|x l IH]; intros seen1 seen2 Hs;
    [done|].
  rewrite fmap_cons. cbn [boolean_mask]. rewrite (dedup_from_cons seen2).
  destruct (p x) eqn:Hp.
  - rewrite dedup_from_cons.
    rewrite (bool_decide_ext (x ∈ seen1) (x ∈ seen2)) by by apply Hs.
    assert (dedup_from (x :: seen1) (boolean_mask l (p <$> l))
            = boolean_mask (dedup_from (x :: seen2) l)
                (p <$> dedup_from (x :: seen2) l)) as Hrec.
    { apply IH. intros y Hy. rewrite !elem_of_cons, (Hs y Hy). done. }
    case_bool_decide; [done|].
    rewrite fmap_cons. cbn [boolean_mask]. by rewrite Hp, Hrec.
  - assert (dedup_from seen1 (boolean_mask l (p <$> l))
            = boolean_mask (dedup_from (x :: seen2) l)
                (p <$> dedup_from (x :: seen2) l)) as Hrec.
    { apply IH. intros y Hy. rewrite elem_of_cons, (Hs y Hy).
      split; [auto|]. intros [->|?]; [congruence|done]. }
    case_bool_decide; [done|].
    rewrite fmap_cons. cbn [boolean_mask]. by rewrite Hp.
Qed.

Lemma selection_iff {A} (P Q : A → Prop) (l out : list A) :
  (∀ x, P x ↔ Q x) → selection P l out → selection Q l out.
Proof.
  intros HPQ (Hs & Hp & Hm). split; [done|]. split.
  - eapply Forall_impl; [exact Hp|]. intros x. by apply HPQ.
  - intros k Hk Hq. apply Hm; [done|].
    eapply Forall_impl; [exact Hq|]. intros x. by apply HPQ.
Qed.

(** The texts of the agreed pairs: the distinct texts of the table in
    order of first occurrence, masked by agreement. *)
Lemma fst_extract_agreed_mask (df : DataFrame) :
  (extract_agreed df).*1
  = boolean_mask (drop_duplicates (text <$> df))
      ((λ t, bool_decide (t ∈ agreed_keys df))
         <$> drop_duplicates (text <$> df)).
Proof.
  rewrite extract_agreed_unfold, !drop_duplicates_dedup.
  rewrite (dedup_from_fmap_inj fst).
  - assert (fst <$> ((λ r, (text r, label r)) <$>
              boolean_mask df
                ((λ r, bool_decide (text r ∈ agreed_keys df)) <$> df))
            = boolean_mask (text <$> df)
                ((λ t, bool_decide (t ∈ agreed_keys df)) <$> (text <$> df)))
      as ->.
    { rewrite boolean_mask_fmap, <- !list_fmap_compose. reflexivity. }
    by apply (dedup_from_mask (λ t, bool_decide (t ∈ agreed_keys df)) [] []).
  - rewrite app_nil_r. intros [t1 l1] [t2 l2] H1 H2. simpl. intros <-.
    apply list_elem_of_fmap in H1 as (r1 & [= -> ->] & Hr1).
    apply list_elem_of_fmap in H2 as (r2 & [= Ht ->] & Hr2).
    apply (elem_of_boolean_mask_map
             (λ r, bool_decide (text r ∈ agreed_keys df))) in Hr1
      as [Hr1 Ha].
    apply (elem_of_boolean_mask_map
             (λ r, bool_decide (text r ∈ agreed_keys df))) in Hr2
      as [Hr2 _].
    apply bool_decide_eq_true, elem_of_agreed_keys in Ha
      as (l & _ & Hall).
    f_equal. rewrite (Hall (label r1)), (Hall (label r2)); [done| |].
    + by exists r2.
    + by exists r1.
Qed.

(** ** Further facts about the exported text *)

Lemma no_control_append (a b : string) :
  no_control (a +:+ b) = no_control a && no_control b.
Proof.
  induction a as [|c a IH]; simpl; [done|]. by rewrite IH, andb_assoc.
Qed.

Lemma no_control_escape_char (c : ascii) :
  no_control (default (str1 c) (ESCAPE_DCT c)) = true.
Proof. destruct c as [[] [] [] [] [] [] [] []]; reflexivity. Qed.

Lemma no_control_escape (s : string) : no_control (escape s) = true.
Proof.
  induction s as [|c s IH]; [done|]. simpl escape.
  by rewrite no_control_append, no_control_escape_char, IH.
Qed.

Lemma no_control_json_dumps (text label : string) :
  no_control (json_dumps text label) = true.
Proof.
  rewrite json_dumps_shape. unfold member_tail. simpl.
  rewrite !no_control_append. simpl. rewrite !no_control_append. simpl.
  by rewrite !no_control_escape.
Qed.

Lemma read_pair_json_dumps (text label : string) :
  read_pair (json_dumps text label) = Some (text, label).
Proof. unfold read_pair. by rewrite read_object_json_dumps. Qed.

Lemma read_jsonl_jsonl (df : list (string * string)) :
  read_jsonl (jsonl df) = Some df.
Proof.
  unfold read_jsonl. rewrite lines_jsonl.
  apply mapM_fmap_Some. intros [t l]. apply read_pair_json_dumps.
Qed.

(** * Part IV: properties of the pipeline *)

(** ** C2 *)

(** C2 — confidence filter correctness.  For every table and threshold,
    [filter_by_confidence] returns exactly the rows whose score is
    [>=] the threshold, in their input order: the result is a subsequence
    of the input, it contains a row iff the input does and the row passes,
    and every subsequence of passing input rows is a subsequence of the
    result (no passing row, nor any duplicate of one, is lost).  A row
    whose score equals the threshold is kept; a row whose score is
    strictly below it is dropped. *)
Theorem filter_by_confidence_correct (df : DataFrame) (tau : spec_float) :
  filter_by_confidence df tau `sublist_of` df
  ∧ (∀ r, r ∈ filter_by_confidence df tau
          ↔ r ∈ df ∧ float_ge (confidence_score r) tau = true)
  ∧ (∀ k, k `sublist_of` df →
          Forall (λ r, float_ge (confidence_score r) tau = true) k →
          k `sublist_of` filter_by_confidence df tau)
  ∧ (∀ r, r ∈ df → float_eq (confidence_score r) tau = true →
          r ∈ filter_by_confidence df tau)
  ∧ (∀ r, float_lt (confidence_score r) tau = true →
          r ∉ filter_by_confidence df tau).
Proof.
  unfold filter_by_confidence, copy.
  pose proof (elem_of_boolean_mask_map
                (λ r, float_ge (confidence_score r) tau) df) as Hin.
  simpl in Hin.
  split; [|split; [|split; [|split]]].
  - apply boolean_mask_map_sublist.
  - apply Hin.
  - apply (boolean_mask_map_maximal (λ r, float_ge (confidence_score r) tau)).
  - intros r Hr Heq. apply Hin. split; [done|]. by apply float_eq_ge.
  - intros r Hlt [_ Hge]%Hin.
    apply float_lt_not_ge in Hlt. congruence.
Qed.

(** ** C1 *)

(** C1 — partition.  For every table [df] (in particular every
    confidence-filtered one) and every text [t]: if [t] occurs in [df] it
    is reported by exactly one of [detect_disagreements] and
    [extract_agreed]; a text with two or more distinct labels yields exactly
    one record and no pair; a text with exactly one distinct label yields
    exactly one pair and no record; and a text none of whose rows passes the
    confidence filter occurs in neither output of the filtered table. *)
Theorem agreed_disagreed_partition
    (set_order : PySet → list string) (df : DataFrame) (t : string) :
  (t ∈ (text <$> df) →
     (t ∈ (rec_text <$> detect_disagreements set_order df)
      ∨ t ∈ (extract_agreed df).*1)
     ∧ ¬ (t ∈ (rec_text <$> detect_disagreements set_order df)
          ∧ t ∈ (extract_agreed df).*1))
  ∧ (disagreed_text df t →
       length (filter (λ rec, rec_text rec = t)
                 (detect_disagreements set_order df)) = 1
       ∧ t ∉ (extract_agreed df).*1)
  ∧ (agreed_text df t →
       length (filter (λ p, p.1 = t) (extract_agreed df)) = 1
       ∧ t ∉ (rec_text <$> detect_disagreements set_order df))
  ∧ (t ∉ (text <$> df) →
       (t ∉ rec_text <$> detect_disagreements set_order df)
       ∧ (t ∉ (extract_agreed df).*1))
  ∧ (∀ raw tau,
       df = filter_by_confidence raw tau →
       (∀ r, r ∈ raw → text r = t →
             float_ge (confidence_score r) tau = false) →
       (t ∉ rec_text <$> detect_disagreements set_order df)
       ∧ (t ∉ (extract_agreed df).*1)).
Proof.
  rewrite rec_text_detect_disagreements.
  rewrite elem_of_disagreed_keys, elem_of_fst_extract_agreed.
  assert (t ∉ (text <$> df) → ¬ disagreed_text df t ∧ ¬ agreed_text df t)
    as Hout.
  { intros Hn. split.
    - intros (l & _ & (r & Hr & <- & _) & _). apply Hn.
      apply list_elem_of_fmap. by exists r.
    - intros (l & (r & Hr & <- & _) & _). apply Hn.
      apply list_elem_of_fmap. by exists r. }
  split; [|split; [|split; [|split]]].
  - intros Hin. split.
    + destruct (agreed_or_disagreed df t Hin); auto.
    + intros [Hd Ha]. by apply (agreed_not_disagreed df t).
  - intros Hd. split.
    + apply length_filter_NoDup_fmap.
      * rewrite rec_text_detect_disagreements. apply NoDup_disagreed_keys.
      * rewrite rec_text_detect_disagreements. by apply elem_of_disagreed_keys.
    + intros Ha. by apply (agreed_not_disagreed df t).
  - intros Ha. split.
    + apply (length_filter_NoDup_fmap fst).
      * apply NoDup_fst_extract_agreed.
      * by apply elem_of_fst_extract_agreed.
    + by apply agreed_not_disagreed.
  - exact Hout.
  - intros raw tau -> Hdrop.
    rewrite elem_of_disagreed_keys, elem_of_fst_extract_agreed.
    apply Hout.
    intros (r & Ht & Hr)%list_elem_of_fmap.
    apply elem_of_filter_by_confidence in Hr as [Hr Hge].
    rewrite (Hdrop r Hr (eq_sym Ht)) in Hge. done.
Qed.

(** ** C4 *)

(** C4 — agreed extraction.  For every table, [extract_agreed] returns a
    subsequence of the table's [(text, label)] rows (so pairs follow row
    order), holds a pair [(t, l)] iff [t] is an agreed text and [l] its
    label, and holds no text twice: rows of several annotators with the same
    text and label collapse into one pair. *)
Theorem extract_agreed_correct (df : DataFrame) :
  extract_agreed df `sublist_of` (λ r, (text r, label r)) <$> df
  ∧ (∀ t l, (t, l) ∈ extract_agreed df ↔ agreed_text df t ∧ has_label df t l)
  ∧ NoDup (extract_agreed df).*1
  ∧ (∀ t, agreed_text df t →
          length (filter (λ p, p.1 = t) (extract_agreed df)) = 1).
Proof.
  split; [apply extract_agreed_sublist|].
  split; [apply elem_of_extract_agreed|].
  split; [apply NoDup_fst_extract_agreed|].
  intros t Ha. apply (length_filter_NoDup_fmap fst).
  - apply NoDup_fst_extract_agreed.
  - by apply elem_of_fst_extract_agreed.
Qed.

(** ** C9 *)

(** C9 — record order.  The texts of the records returned by
    [detect_disagreements] are strictly increasing in string order and are
    exactly the disagreed texts, so they form the sorted sequence of the
    disagreed texts: every strictly increasing list with the same members
    equals it. *)
Theorem detect_disagreements_sorted
    (set_order : PySet → list string) (df : DataFrame) :
  StronglySorted str_lt (rec_text <$> detect_disagreements set_order df)
  ∧ (∀ t, t ∈ (rec_text <$> detect_disagreements set_order df)
          ↔ disagreed_text df t)
  ∧ (∀ ts, StronglySorted str_lt ts →
           (∀ t, t ∈ ts ↔ disagreed_text df t) →
           rec_text <$> detect_disagreements set_order df = ts).
Proof.
  rewrite rec_text_detect_disagreements.
  split; [apply disagreed_keys_sorted|].
  split; [apply elem_of_disagreed_keys|].
  intros ts Hts Hmem. apply StronglySorted_str_lt_unique.
  - apply disagreed_keys_sorted.
  - done.
  - intros t. by rewrite elem_of_disagreed_keys, Hmem.
Qed.

(** ** C3 *)

(** C3 — disagreement records.  Let [list(s)] enumerate each member of a
    set once.  Then for every table and every text [t] with two or more
    distinct labels, [detect_disagreements] holds exactly one record for
    [t]; its labels are, without repetition, all the labels that rows of
    [t] carry; and its annotators and confidence scores are read off, in
    order, from one and the same row sequence: exactly the rows of [t], in
    table order.  In particular, when the rows of [t] are [r1; r2; r3]
    labelled [a], [a], [b] with [a ≠ b], the record has the two labels [a]
    and [b] and lists the three annotators and three scores in row order. *)
Theorem detect_disagreements_record
    (set_order : PySet → list string)
    (set_order_perm : ∀ s, set_order s ≡ₚ s)
    (df : DataFrame) (t : string) :
  disagreed_text df t →
  ∃ rec,
    filter (λ rec, rec_text rec = t) (detect_disagreements set_order df)
      = [rec]
    ∧ rec_text rec = t
    ∧ NoDup (rec_labels rec)
    ∧ (∀ l, l ∈ rec_labels rec ↔ has_label df t l)
    ∧ (∃ rows, selection (λ r, text r = t) df rows
               ∧ rec_annotators rec = annotator_id <$> rows
               ∧ rec_confidence_scores rec = confidence_score <$> rows)
    ∧ length (rec_annotators rec) = length (rec_confidence_scores rec)
    ∧ (∀ r1 r2 r3 a b,
         selection (λ r, text r = t) df [r1; r2; r3] →
         label r1 = a → label r2 = a → label r3 = b → a ≠ b →
         length (rec_labels rec) = 2
         ∧ (∀ l, l ∈ rec_labels rec ↔ l = a ∨ l = b)
         ∧ rec_annotators rec
             = [annotator_id r1; annotator_id r2; annotator_id r3]
         ∧ rec_confidence_scores rec
             = [confidence_score r1; confidence_score r2;
                confidence_score r3]).
Proof.
  intros Hd. eexists. split.
  { rewrite detect_disagreements_unfold.
    rewrite (filter_fmap_eq rec_text) by done.
    rewrite filter_eq_NoDup;
      [reflexivity|apply NoDup_disagreed_keys|by apply elem_of_disagreed_keys]. }
  simpl.
  assert (∀ l, l ∈ set_order (group_labels df t) ↔ has_label df t l) as Hmem.
  { intros l. by rewrite set_order_perm, elem_of_group_labels. }
  assert (NoDup (set_order (group_labels df t))) as Hnd.
  { rewrite set_order_perm. apply NoDup_group_labels. }
  split; [done|]. split; [done|]. split; [done|]. split.
  { exists (rows_of_text df t). split; [apply rows_of_text_selection|done]. }
  split; [by rewrite !length_fmap|].
  intros r1 r2 r3 a b Hsel H1 H2 H3 Hab.
  rewrite (selection_unique _ _ _ _ (rows_of_text_selection df t) Hsel).
  assert (∀ l, has_label df t l ↔ l = a ∨ l = b) as Hlab.
  { intros l. rewrite <- elem_of_group_labels. unfold group_labels, set_.
    rewrite elem_of_drop_duplicates.
    rewrite (selection_unique _ _ _ _ (rows_of_text_selection df t) Hsel).
    simpl. rewrite H1, H2, H3, !elem_of_cons, elem_of_nil.
    split; [intros [?|[?|[?|[]]]]; auto | intros [?|?]; auto]. }
  split.
  { apply (NoDup_two_members _ a b); [done|done|].
    intros l. by rewrite Hmem. }
  split; [|done]. intros l. by rewrite Hmem.
Qed.

(** ** C5 *)

(** C5 — export format.  When the destination can be opened, for every
    sequence of pairs [export_jsonl] completes and leaves at the
    destination exactly the text [jsonl df], whatever the destination held
    before; other files, the log and the console are untouched, and for no
    pairs the file is empty.  When the destination cannot be opened,
    [export_jsonl] raises and leaves the world as it was.  The text
    [jsonl df] has one line per pair, in order; each line reads back as a
    JSON object with exactly the members [text] and [label] holding the
    pair's strings, contains no line feed, and carries the non-ASCII bytes
    of the pair unchanged (no character outside ASCII has a replacement in
    the escape table). *)
Theorem export_jsonl_format (df : list (string * string)) (path : string)
    (w : World) :
  (path ∉ unwritable w →
   (export_jsonl df path w).1 = Some tt
   ∧ files (export_jsonl df path w).2 !! path = Some (jsonl df)
   ∧ (∀ q, q ≠ path →
           files (export_jsonl df path w).2 !! q = files w !! q)
   ∧ log_file (export_jsonl df path w).2 = log_file w
   ∧ console_stream (export_jsonl df path w).2 = console_stream w
   ∧ (df = [] →
      files (export_jsonl df path w).2 !! path = Some EmptyString))
  ∧ (path ∈ unwritable w → export_jsonl df path w = (None, w))
  ∧ lines (jsonl df) = (λ p, json_dumps p.1 p.2) <$> df
  ∧ length (lines (jsonl df)) = length df
  ∧ Forall (λ p,
      JSON.read_object (json_dumps p.1 p.2)
        = Some [("text", p.1); ("label", p.2)]
      ∧ has_char 10 (json_dumps p.1 p.2) = false
      ∧ non_ascii (json_dumps p.1 p.2) = non_ascii p.1 +:+ non_ascii p.2) df
  ∧ (∀ c, (128 <=? ord c)%N = true → ESCAPE_DCT c = None)
  ∧ (df = [] → lines (jsonl df) = []).
Proof.
  split.
  { intros Hw. rewrite export_jsonl_run by done. unfold with_file.
    cbn [fst snd files log_file console_stream].
    split; [done|]. split; [apply lookup_insert_eq|].
    split; [intros q Hq; by apply lookup_insert_ne|].
    split; [done|]. split; [done|].
    intros ->. apply lookup_insert_eq. }
  split; [apply export_jsonl_raises|].
  split; [apply lines_jsonl|].
  split; [by rewrite lines_jsonl, length_fmap|]. split.
  { apply Forall_forall. intros [t l] _. simpl.
    split; [apply read_object_json_dumps|].
    split; [apply has_char_LF_json_dumps|apply non_ascii_json_dumps]. }
  split; [apply ESCAPE_DCT_non_ascii|].
  by intros ->.
Qed.

(** ** C6 *)

(** C6 — idempotence.  Take a world whose input file parses to a table
    with the columns of the data model and whose destination can be
    opened, whatever the export file holds.  Run [main] twice in a row,
    the interpreter enumerating sets in possibly different orders in the
    two runs.  The first run completes, leaves the input file as it was and
    writes the JSONL text of the agreed pairs of the input table; the
    second run completes as well, and the export file then holds byte for
    byte what it held after the first. *)
Theorem main_idempotent (read_csv : string → option Table)
    (order1 order2 : PySet → list string) (w : World)
    (bytes : string) (df_raw : Table) :
  files w !! FILE_RAW = Some bytes →
  read_csv bytes = Some df_raw →
  has_columns REQUIRED_COLUMNS df_raw →
  FILE_OUT ∉ unwritable w →
  (main read_csv order1 w).1 = Some tt
  ∧ files (main read_csv order1 w).2 !! FILE_RAW = Some bytes
  ∧ files (main read_csv order1 w).2 !! FILE_OUT
    = Some (jsonl (extract_agreed
                     (filter_by_confidence (rows df_raw) CONF_THRESHOLD)))
  ∧ (main read_csv order2 (main read_csv order1 w).2).1 = Some tt
  ∧ files (main read_csv order2 (main read_csv order1 w).2).2 !! FILE_OUT
    = files (main read_csv order1 w).2 !! FILE_OUT.
Proof.
  intros Hfile Hparse Hcols Hw.
  assert ("confidence_score" ∈ columns df_raw) as Hc.
  { unfold has_columns in Hcols. rewrite Forall_forall in Hcols.
    apply Hcols. unfold REQUIRED_COLUMNS. set_solver. }
  pose proof (analysable_full df_raw Hcols) as Ha.
  rewrite (main_completes read_csv order1 w bytes df_raw) by done.
  cbn [fst snd].
  assert (files (world_at order1 Completed (rows df_raw) w) !! FILE_RAW
          = Some bytes) as Hfile1.
  { rewrite files_world_at; [done|]. intros Heq. by apply FILE_RAW_OUT. }
  rewrite (main_completes read_csv order2 _ bytes df_raw) by done.
  cbn [fst snd]. split; [done|]. split; [done|].
  unfold world_at. cbn [files]. by rewrite !lookup_insert_eq.
Qed.

(** ** C7 *)

(** C7 — zero-disagreements marker.  Take a run whose input file parses
    to a table with the columns [text], [label] and [confidence_score].
    If the analyzer returns no record, the entries the run appends to the
    log hold the message "Disagreed samples: 0" exactly once and no record
    dump; when the destination can be opened the run completes and the
    export file holds the JSONL text of the agreed pairs, and when it
    cannot the run raises at the export, after the marker, and writes no
    file.  If no row passes the confidence filter, the analyzer returns no
    record and the export file, when it can be opened, is left empty. *)
Theorem zero_disagreements_marker (read_csv : string → option Table)
    (set_order : PySet → list string) (w : World)
    (bytes : string) (df_raw : Table) :
  files w !! FILE_RAW = Some bytes →
  read_csv bytes = Some df_raw →
  has_columns ["text"; "label"; "confidence_score"] df_raw →
  (detect_disagreements set_order
     (filter_by_confidence (rows df_raw) CONF_THRESHOLD) = [] →
   (∃ entries,
      log_file (main read_csv set_order w).2 = log_file w ++ entries
      ∧ length (filter (λ m, m = Message "Disagreed samples: 0") entries)
        = 1
      ∧ ∀ rec, RecordDump rec ∉ entries)
   ∧ (FILE_OUT ∉ unwritable w →
      (main read_csv set_order w).1 = Some tt
      ∧ files (main read_csv set_order w).2 !! FILE_OUT
        = Some (jsonl (extract_agreed
                         (filter_by_confidence (rows df_raw)
                            CONF_THRESHOLD))))
   ∧ (FILE_OUT ∈ unwritable w →
      (main read_csv set_order w).1 = None
      ∧ files (main read_csv set_order w).2 = files w))
  ∧ (filter_by_confidence (rows df_raw) CONF_THRESHOLD = [] →
     detect_disagreements set_order
       (filter_by_confidence (rows df_raw) CONF_THRESHOLD) = []
     ∧ (FILE_OUT ∉ unwritable w →
        files (main read_csv set_order w).2 !! FILE_OUT
        = Some EmptyString)).
Proof.
  intros Hfile Hparse Hcols.
  apply has_columns_cons in Hcols as [Ht Hcols].
  apply has_columns_cons in Hcols as [Hl Hcols].
  apply has_columns_cons in Hcols as [Hc _].
  assert (detect_disagreements set_order
            (filter_by_confidence (rows df_raw) CONF_THRESHOLD) = [] →
          analysable df_raw) as Han.
  { intros Hnone%detect_disagreements_nil. split; [|by left].
    by apply has_columns_2. }
  split.
  - intros Hnone. pose proof (Han Hnone) as Ha.
    rewrite main_spec, Hfile. simpl. rewrite Hparse.
    unfold run_stage.
    rewrite (bool_decide_eq_true_2 _ Hc), (bool_decide_eq_true_2 _ Ha).
    split; [|split].
    + case_bool_decide.
      * exists (log_at set_order AtExport (rows df_raw)).
        split; [done|]. unfold log_at. rewrite Hnone. split; [by simpl|].
        intros rec Hin. simpl in Hin.
        rewrite !elem_of_cons, elem_of_nil in Hin.
        repeat (destruct Hin as [Hin|Hin]; [discriminate|]). done.
      * exists (log_at set_order Completed (rows df_raw)).
        split; [done|]. unfold log_at, run_log. rewrite Hnone.
        split; [by simpl|].
        intros rec Hin. simpl in Hin.
        rewrite !elem_of_cons, elem_of_nil in Hin.
        repeat (destruct Hin as [Hin|Hin]; [discriminate|]). done.
    + intros Hw. rewrite (bool_decide_eq_false_2 _ Hw). cbn [fst snd].
      split; [done|]. unfold world_at. cbn [files].
      apply lookup_insert_eq.
    + intros Hw. rewrite (bool_decide_eq_true_2 _ Hw). by cbn [fst snd].
  - intros Hempty. rewrite Hempty. split; [done|]. intros Hw.
    rewrite (main_completes read_csv set_order w bytes df_raw); try done.
    + cbn [snd]. unfold world_at. cbn [files].
      by rewrite lookup_insert_eq, Hempty.
    + apply Han. by rewrite Hempty.
Qed.

(** ** C8 *)

(** C8 — filter purity.  With frames held as objects in a store, filtering
    the frame at [df] succeeds and returns a reference that was not
    allocated before; the new frame holds the filtered rows; every frame
    that existed before, the input among them, holds the rows it held; and
    an in-place update of the returned frame leaves the input frame as it
    was. *)
Theorem filter_by_confidence_pure (h : gmap nat DataFrame) (df : nat)
    (rows : DataFrame) (tau : spec_float) :
  h !! df = Some rows →
  ∃ out h',
    Store.filter_by_confidence df tau h = Some (out, h')
    ∧ h' !! out = Some (filter_by_confidence rows tau)
    ∧ (out ∉ dom h)
    ∧ out ≠ df
    ∧ (∀ r, r ∈ dom h → h' !! r = h !! r)
    ∧ h' !! df = Some rows
    ∧ ∀ rows', Store.assign out rows' h' !! df = Some rows.
Proof.
  intros Hdf.
  assert (df ∈ dom h) as Hdom by (apply elem_of_dom; eauto).
  unfold Store.filter_by_confidence, Store.column_ge, Store.getitem_mask.
  rewrite Hdf. cbn [mbind option_bind].
  set (sel := boolean_mask rows
                ((λ r, float_ge (confidence_score r) tau) <$> rows)).
  destruct (Store.alloc sel h) as [r1 h1] eqn:Ha1.
  pose proof (alloc_lookup sel h) as Hl1.
  pose proof (alloc_frame sel h) as Hf1.
  pose proof (alloc_dom sel h) as Hd1.
  rewrite Ha1 in Hl1, Hf1, Hd1. cbn [fst snd] in Hl1, Hf1, Hd1.
  unfold Store.copy. rewrite Hl1. cbn [mbind option_bind].
  destruct (Store.alloc (copy sel) h1) as [r2 h2] eqn:Ha2.
  pose proof (alloc_lookup (copy sel) h1) as Hl2.
  pose proof (alloc_frame (copy sel) h1) as Hf2.
  pose proof (alloc_fresh (copy sel) h1) as Hn2.
  rewrite Ha2 in Hl2, Hf2, Hn2. cbn [fst snd] in Hl2, Hf2, Hn2.
  assert (∀ r, r ∈ dom h → h2 !! r = h !! r) as Hframe.
  { intros r Hr. rewrite Hf2 by auto. by apply Hf1. }
  assert (r2 ∉ dom h) as Hfresh by (intros Hr; by apply Hn2, Hd1).
  assert (r2 ≠ df) as Hne by (by intros ->).
  exists r2, h2. split; [done|]. split; [done|]. split; [done|].
  split; [done|]. split; [done|]. split; [by rewrite Hframe|].
  intros rows'. unfold Store.assign.
  rewrite lookup_insert_ne by done. by rewrite Hframe.
Qed.

(** ** C10 *)

(** C10 — rows without score.  A row whose confidence score is NaN is not
    in the filtered table, for any threshold, and filtering a table that
    holds such a row gives what filtering the table without it gives.  A
    run on an input file that parses to a table holding the row has the
    outcome of a run, from the same world, on an input file that parses to
    the table without the row, and leaves the same log file, the same
    console and, the input file apart, the same files: nothing is raised
    and nothing is logged on account of the row. *)
Theorem missing_score_rejected (r : AnnotationRow) (df1 df2 : DataFrame) :
  is_nan (confidence_score r) = true →
  (∀ tau, r ∉ filter_by_confidence (df1 ++ r :: df2) tau)
  ∧ (∀ tau, filter_by_confidence (df1 ++ r :: df2) tau
            = filter_by_confidence (df1 ++ df2) tau)
  ∧ (∀ read_csv set_order w bytes bytes' header,
       read_csv bytes
       = Some {| columns := header; rows := df1 ++ r :: df2 |} →
       read_csv bytes'
       = Some {| columns := header; rows := df1 ++ df2 |} →
       (main read_csv set_order (with_file FILE_RAW bytes w)).1
       = (main read_csv set_order (with_file FILE_RAW bytes' w)).1
       ∧ log_file (main read_csv set_order (with_file FILE_RAW bytes w)).2
         = log_file (main read_csv set_order (with_file FILE_RAW bytes' w)).2
       ∧ console_stream
           (main read_csv set_order (with_file FILE_RAW bytes w)).2
         = console_stream
             (main read_csv set_order (with_file FILE_RAW bytes' w)).2
       ∧ ∀ q, q ≠ FILE_RAW →
           files (main read_csv set_order (with_file FILE_RAW bytes w)).2
             !! q
           = files (main read_csv set_order (with_file FILE_RAW bytes' w)).2
               !! q).
Proof.
  intros Hnan.
  assert (∀ tau, filter_by_confidence (df1 ++ r :: df2) tau
                 = filter_by_confidence (df1 ++ df2) tau) as Heq.
  { intros tau. rewrite !filter_by_confidence_app. f_equal.
    unfold filter_by_confidence, copy. simpl.
    by rewrite (float_ge_nan _ tau Hnan). }
  split; [|split; [done|]].
  - intros tau [_ Hge]%elem_of_filter_by_confidence.
    by rewrite (float_ge_nan _ tau Hnan) in Hge.
  - intros read_csv set_order w bytes bytes' header Hparse Hparse'.
    rewrite (main_with_file read_csv set_order w bytes _ Hparse).
    rewrite (main_with_file read_csv set_order w bytes' _ Hparse').
    rewrite (run_stage_ext
               {| columns := header; rows := df1 ++ r :: df2 |}
               {| columns := header; rows := df1 ++ df2 |}
               (with_file FILE_RAW bytes w) (with_file FILE_RAW bytes' w))
      by (done || apply Heq).
    cbn [fst snd rows]. unfold world_at.
    cbn [files log_file console_stream with_file].
    rewrite (log_at_ext set_order _ (df1 ++ r :: df2) (df1 ++ df2))
      by apply Heq.
    rewrite (console_at_ext _ (df1 ++ r :: df2) (df1 ++ df2)) by apply Heq.
    split; [done|]. split; [done|]. split; [done|].
    intros q Hq. rewrite (Heq CONF_THRESHOLD).
    assert (∀ c c' : string,
              <[FILE_RAW:=c]> (files w) !! q
              = <[FILE_RAW:=c']> (files w) !! q) as Hraw.
    { intros c c'. by rewrite !lookup_insert_ne. }
    destruct (run_stage _ _); try apply Hraw.
    destruct (decide (q = FILE_OUT)) as [->|Hne].
    + by rewrite !lookup_insert_eq.
    + rewrite !(lookup_insert_ne _ FILE_OUT) by done. apply Hraw.
Qed.

(** ** The properties at the sample data *)

(** Records come in sorted key order even when the table lists the texts
    the other way round. *)
Example detect_disagreements_order_sample :
  rec_text <$> detect_disagreements (λ s, s)
    [ mkRow "hi" "greet" "A1" f64_0_9; mkRow "hi" "part" "A2" f64_0_9;
      mkRow "bye" "part" "A1" f64_0_9; mkRow "bye" "greet" "A2" f64_0_9 ]
  = ["bye"; "hi"].
Proof. reflexivity. Qed.

Lemma detect_disagreements_record_witness :
  (∀ s : PySet, (λ s : PySet, s) s ≡ₚ s)
  ∧ disagreed_text sample_aab "t"
  ∧ ∃ rec,
      filter (λ rec, rec_text rec = "t")
        (detect_disagreements (λ s, s) sample_aab) = [rec]
      ∧ rec_text rec = "t"
      ∧ NoDup (rec_labels rec)
      ∧ (∀ l, l ∈ rec_labels rec ↔ has_label sample_aab "t" l)
      ∧ (∃ rows, selection (λ r, text r = "t") sample_aab rows
                 ∧ rec_annotators rec = annotator_id <$> rows
                 ∧ rec_confidence_scores rec = confidence_score <$> rows)
      ∧ length (rec_annotators rec) = length (rec_confidence_scores rec)
      ∧ (∀ r1 r2 r3 a b,
           selection (λ r, text r = "t") sample_aab [r1; r2; r3] →
           label r1 = a → label r2 = a → label r3 = b → a ≠ b →
           length (rec_labels rec) = 2
           ∧ (∀ l, l ∈ rec_labels rec ↔ l = a ∨ l = b)
           ∧ rec_annotators rec
               = [annotator_id r1; annotator_id r2; annotator_id r3]
           ∧ rec_confidence_scores rec
               = [confidence_score r1; confidence_score r2;
                  confidence_score r3]).
Proof.
  assert (∀ s : PySet, (λ s : PySet, s) s ≡ₚ s) as Hperm
    by (intros s; reflexivity).
  assert (disagreed_text sample_aab "t") as Hdis.
  { exists "A", "B". split; [|split; [|discriminate]].
    - exists (mkRow "t" "A" "A1" f64_0_9).
      split; [apply list_elem_of_here|split; reflexivity].
    - exists (mkRow "t" "B" "A3" f64_0_9).
      split; [do 2 apply list_elem_of_further; apply list_elem_of_here|].
      split; reflexivity. }
  split; [exact Hperm|]. split; [exact Hdis|].
  exact (detect_disagreements_record (λ s, s) Hperm sample_aab "t" Hdis).
Defined.

Lemma main_idempotent_witness :
  files sample_world !! FILE_RAW = Some "csv"
  ∧ sample_read_csv sample_raw "csv"
    = Some {| columns := REQUIRED_COLUMNS; rows := sample_raw |}
  ∧ has_columns REQUIRED_COLUMNS
      {| columns := REQUIRED_COLUMNS; rows := sample_raw |}
  ∧ (FILE_OUT ∉ unwritable sample_world)
  ∧ (main (sample_read_csv sample_raw) (λ s, s) sample_world).1 = Some tt
  ∧ files (main (sample_read_csv sample_raw) (λ s, s) sample_world).2
      !! FILE_RAW = Some "csv"
  ∧ files (main (sample_read_csv sample_raw) (λ s, s) sample_world).2
      !! FILE_OUT
    = Some (jsonl (extract_agreed
                     (filter_by_confidence sample_raw CONF_THRESHOLD)))
  ∧ (main (sample_read_csv sample_raw) reverse
       (main (sample_read_csv sample_raw) (λ s, s) sample_world).2).1
    = Some tt
  ∧ files (main (sample_read_csv sample_raw) reverse
             (main (sample_read_csv sample_raw) (λ s, s) sample_world).2).2
      !! FILE_OUT
    = files (main (sample_read_csv sample_raw) (λ s, s) sample_world).2
        !! FILE_OUT.
Proof.
  assert (files sample_world !! FILE_RAW = Some "csv") as Hfile
    by (vm_compute; reflexivity).
  assert (sample_read_csv sample_raw "csv"
          = Some {| columns := REQUIRED_COLUMNS; rows := sample_raw |})
    as Hparse by reflexivity.
  assert (has_columns REQUIRED_COLUMNS
            {| columns := REQUIRED_COLUMNS; rows := sample_raw |}) as Hcols.
  { apply (bool_decide_unpack _). vm_compute. exact I. }
  assert (FILE_OUT ∉ unwritable sample_world) as Hw.
  { apply (bool_decide_unpack _). vm_compute. exact I. }
  split; [exact Hfile|]. split; [exact Hparse|]. split; [exact Hcols|].
  split; [exact Hw|].
  exact (main_idempotent (sample_read_csv sample_raw) (λ s, s) reverse
           sample_world "csv" _ Hfile Hparse Hcols Hw).
Defined.

Lemma zero_disagreements_marker_witness :
  files sample_world !! FILE_RAW = Some "csv"
  ∧ sample_read_csv sample_agreeing "csv"
    = Some {| columns := REQUIRED_COLUMNS; rows := sample_agreeing |}
  ∧ has_columns ["text"; "label"; "confidence_score"]
      {| columns := REQUIRED_COLUMNS; rows := sample_agreeing |}
  ∧ detect_disagreements (λ s, s)
      (filter_by_confidence sample_agreeing CONF_THRESHOLD) = []
  ∧ (FILE_OUT ∉ unwritable sample_world)
  ∧ (∃ entries,
       log_file (main (sample_read_csv sample_agreeing) (λ s, s)
                   sample_world).2
         = log_file sample_world ++ entries
       ∧ length (filter (λ m, m = Message "Disagreed samples: 0") entries)
         = 1
       ∧ ∀ rec, RecordDump rec ∉ entries)
  ∧ (main (sample_read_csv sample_agreeing) (λ s, s) sample_world).1
    = Some tt
  ∧ files (main (sample_read_csv sample_agreeing) (λ s, s) sample_world).2
      !! FILE_OUT
    = Some (jsonl (extract_agreed
                     (filter_by_confidence sample_agreeing CONF_THRESHOLD))).
Proof.
  assert (files sample_world !! FILE_RAW = Some "csv") as Hfile
    by (vm_compute; reflexivity).
  assert (sample_read_csv sample_agreeing "csv"
          = Some {| columns := REQUIRED_COLUMNS; rows := sample_agreeing |})
    as Hparse by reflexivity.
  assert (has_columns ["text"; "label"; "confidence_score"]
            {| columns := REQUIRED_COLUMNS; rows := sample_agreeing |})
    as Hcols.
  { apply (bool_decide_unpack _). vm_compute. exact I. }
  assert (detect_disagreements (λ s, s)
            (filter_by_confidence sample_agreeing CONF_THRESHOLD) = [])
    as Hnone by (vm_compute; reflexivity).
  assert (FILE_OUT ∉ unwritable sample_world) as Hw.
  { apply (bool_decide_unpack _). vm_compute. exact I. }
  split; [exact Hfile|]. split; [exact Hparse|]. split; [exact Hcols|].
  split; [exact Hnone|]. split; [exact Hw|].
  destruct (zero_disagreements_marker (sample_read_csv sample_agreeing)
              (λ s, s) sample_world "csv" _ Hfile Hparse Hcols)
    as [Hmarker _].
  destruct (Hmarker Hnone) as (Hentries & Hopen & _).
  split; [exact Hentries|]. exact (Hopen Hw).
Defined.

Lemma filter_by_confidence_pure_witness :
  ({[ 0 := sample_raw ]} : gmap nat DataFrame) !! 0 = Some sample_raw
  ∧ ∃ out h',
      Store.filter_by_confidence 0 CONF_THRESHOLD {[ 0 := sample_raw ]}
        = Some (out, h')
      ∧ h' !! out = Some (filter_by_confidence sample_raw CONF_THRESHOLD)
      ∧ (out ∉ dom ({[ 0 := sample_raw ]} : gmap nat DataFrame))
      ∧ out ≠ 0
      ∧ (∀ r, r ∈ dom ({[ 0 := sample_raw ]} : gmap nat DataFrame) →
              h' !! r = ({[ 0 := sample_raw ]} : gmap nat DataFrame) !! r)
      ∧ h' !! 0 = Some sample_raw
      ∧ ∀ rows', Store.assign out rows' h' !! 0 = Some sample_raw.
Proof.
  assert (({[ 0 := sample_raw ]} : gmap nat DataFrame) !! 0 = Some sample_raw)
    as Hdf by (vm_compute; reflexivity).
  split; [exact Hdf|].
  exact (filter_by_confidence_pure {[ 0 := sample_raw ]} 0 sample_raw
           CONF_THRESHOLD Hdf).
Defined.

Lemma missing_score_rejected_witness :
  is_nan (confidence_score (mkRow "ciao" "greet" "A1" S754_nan)) = true
  ∧ (∀ tau, mkRow "ciao" "greet" "A1" S754_nan ∉ filter_by_confidence sample_raw tau)
  ∧ (∀ tau, filter_by_confidence sample_raw tau
            = filter_by_confidence
                (take 5 sample_raw ++ drop 6 sample_raw) tau)
  ∧ (∀ read_csv set_order w bytes bytes' header,
       read_csv bytes = Some {| columns := header; rows := sample_raw |} →
       read_csv bytes'
       = Some {| columns := header;
                 rows := take 5 sample_raw ++ drop 6 sample_raw |} →
       (main read_csv set_order (with_file FILE_RAW bytes w)).1
       = (main read_csv set_order (with_file FILE_RAW bytes' w)).1
       ∧ log_file (main read_csv set_order (with_file FILE_RAW bytes w)).2
         = log_file (main read_csv set_order (with_file FILE_RAW bytes' w)).2
       ∧ console_stream
           (main read_csv set_order (with_file FILE_RAW bytes w)).2
         = console_stream
             (main read_csv set_order (with_file FILE_RAW bytes' w)).2
       ∧ ∀ q, q ≠ FILE_RAW →
           files (main read_csv set_order (with_file FILE_RAW bytes w)).2
             !! q
           = files (main read_csv set_order (with_file FILE_RAW bytes' w)).2
               !! q).
Proof.
  assert (is_nan (confidence_score (mkRow "ciao" "greet" "A1" S754_nan))
          = true) as Hnan by reflexivity.
  split; [exact Hnan|].
  exact (missing_score_rejected (mkRow "ciao" "greet" "A1" S754_nan)
           (take 5 sample_raw) (drop 6 sample_raw) Hnan).
Defined.

(** * Part V: further properties of the code *)

(** ** The confidence filter *)

(** X1 — filtering is idempotent and filters commute.  Filtering an
    already filtered table by the same threshold changes nothing, and
    filtering by two thresholds gives the same table in either order. *)
Theorem filter_by_confidence_idempotent_comm (df : DataFrame)
    (tau tau' : spec_float) :
  filter_by_confidence (filter_by_confidence df tau) tau
  = filter_by_confidence df tau
  ∧ filter_by_confidence (filter_by_confidence df tau) tau'
    = filter_by_confidence (filter_by_confidence df tau') tau.
Proof.
  rewrite !filter_by_confidence_filter, !list_filter_filter. split.
  - apply list_filter_iff. tauto.
  - apply list_filter_iff. tauto.
Qed.

(** X2 — raising the threshold only removes rows.  When [tau2 >= tau1],
    the table filtered by [tau2] is a subsequence of the table filtered by
    [tau1], and is what filtering the latter by [tau2] gives. *)
Theorem filter_by_confidence_monotone (df : DataFrame)
    (tau1 tau2 : spec_float) :
  float_ge tau2 tau1 = true →
  filter_by_confidence df tau2 `sublist_of` filter_by_confidence df tau1
  ∧ filter_by_confidence (filter_by_confidence df tau1) tau2
    = filter_by_confidence df tau2.
Proof.
  intros Hle.
  assert (filter_by_confidence (filter_by_confidence df tau1) tau2
          = filter_by_confidence df tau2) as Heq.
  { rewrite !filter_by_confidence_filter, list_filter_filter.
    apply list_filter_iff. intros r. split; [tauto|]. intros Hr.
    split; [done|]. by apply (float_ge_trans _ tau2). }
  split; [|done]. rewrite <- Heq.
  rewrite (filter_by_confidence_filter (filter_by_confidence df tau1)).
  apply sublist_filter.
Qed.

Lemma filter_by_confidence_monotone_witness :
  float_ge CONF_THRESHOLD f64_0_7 = true
  ∧ filter_by_confidence sample_raw CONF_THRESHOLD
      `sublist_of` filter_by_confidence sample_raw f64_0_7
  ∧ filter_by_confidence (filter_by_confidence sample_raw f64_0_7)
      CONF_THRESHOLD
    = filter_by_confidence sample_raw CONF_THRESHOLD.
Proof.
  assert (float_ge CONF_THRESHOLD f64_0_7 = true) as Hle by reflexivity.
  split; [exact Hle|].
  exact (filter_by_confidence_monotone sample_raw f64_0_7 CONF_THRESHOLD Hle).
Defined.

(** ** The run *)


(** X4 — the disagreement report.  In a run whose input loads with the
    columns of the data model and whose analyzer returns at least one
    record, the log gains the progress messages of the first stages, the
    header "Disagreed samples:" followed by one dump per record in the
    analyzer's order, and the progress messages of the last stages, the
    closing "Done." only when the destination can be opened; it never
    gains the message "Disagreed samples: 0". *)
Theorem main_reports_disagreements (read_csv : string → option Table)
    (set_order : PySet → list string) (w : World)
    (bytes : string) (df_raw : Table) :
  files w !! FILE_RAW = Some bytes →
  read_csv bytes = Some df_raw →
  has_columns REQUIRED_COLUMNS df_raw →
  detect_disagreements set_order
    (filter_by_confidence (rows df_raw) CONF_THRESHOLD) ≠ [] →
  ∃ entries,
    log_file (main read_csv set_order w).2 = log_file w ++ entries
    ∧ entries
      = (Message <$> progress_before (rows df_raw))
        ++ Message "Disagreed samples:"
           :: (RecordDump <$>
                 detect_disagreements set_order
                   (filter_by_confidence (rows df_raw) CONF_THRESHOLD))
        ++ (Message <$>
              if bool_decide (FILE_OUT ∈ unwritable w)
              then take 2 (progress_after (rows df_raw))
              else progress_after (rows df_raw))
    ∧ dumped_records entries
      = detect_disagreements set_order
          (filter_by_confidence (rows df_raw) CONF_THRESHOLD)
    ∧ Message "Disagreed samples: 0" ∉ entries.
Proof.
  intros Hfile Hparse Hcols Hsome.
  pose proof (analysable_full df_raw Hcols) as Ha.
  assert ("confidence_score" ∈ columns df_raw) as Hc
    by by apply has_columns_required in Hcols as (_ & _ & _ & ?).
  rewrite main_spec, Hfile. simpl mbind. rewrite Hparse.
  unfold run_stage.
  rewrite (bool_decide_eq_true_2 _ Hc), (bool_decide_eq_true_2 _ Ha).
  unfold loaded_rows. cbn [from_option snd world_at log_file].
  set (tail := if bool_decide (FILE_OUT ∈ unwritable w)
               then take 2 (progress_after (rows df_raw))
               else progress_after (rows df_raw)).
  assert (log_at set_order
            (if bool_decide (FILE_OUT ∈ unwritable w)
             then AtExport else Completed) (rows df_raw)
          = (Message <$> progress_before (rows df_raw))
            ++ Message "Disagreed samples:"
               :: (RecordDump <$>
                     detect_disagreements set_order
                       (filter_by_confidence (rows df_raw) CONF_THRESHOLD))
            ++ (Message <$> tail)) as Hlog.
  { unfold tail, log_at, run_log.
    destruct (detect_disagreements set_order
                (filter_by_confidence (rows df_raw) CONF_THRESHOLD))
      as [|d ds]; [done|].
    by case_bool_decide. }
  eexists. split; [reflexivity|]. split; [exact Hlog|]. rewrite Hlog.
  split.
  - rewrite dumped_records_app, dumped_records_Message.
    change (Message "Disagreed samples:"
            :: (RecordDump <$>
                  detect_disagreements set_order
                    (filter_by_confidence (rows df_raw) CONF_THRESHOLD))
            ++ (Message <$> tail))
      with ((Message <$> ["Disagreed samples:"])
            ++ (RecordDump <$>
                  detect_disagreements set_order
                    (filter_by_confidence (rows df_raw) CONF_THRESHOLD))
            ++ (Message <$> tail)).
    rewrite !dumped_records_app, !dumped_records_Message.
    rewrite dumped_records_RecordDump. by rewrite app_nil_r.
  - rewrite elem_of_app, elem_of_cons, elem_of_app.
    intros [Hin|[Hin|[Hin|Hin]]].
    + unfold progress_before in Hin. simpl in Hin.
      rewrite !elem_of_cons, elem_of_nil in Hin.
      repeat (destruct Hin as [Hin|Hin]; [discriminate|]). done.
    + discriminate.
    + by apply not_elem_of_RecordDump in Hin.
    + unfold tail, progress_after in Hin.
      destruct (bool_decide (FILE_OUT ∈ unwritable w)); simpl in Hin;
        rewrite !elem_of_cons, elem_of_nil in Hin;
        repeat (destruct Hin as [Hin|Hin]; [discriminate|]); done.
Qed.

Lemma main_reports_disagreements_witness :
  files sample_world !! FILE_RAW = Some "csv"
  ∧ sample_read_csv sample_raw "csv"
    = Some {| columns := REQUIRED_COLUMNS; rows := sample_raw |}
  ∧ has_columns REQUIRED_COLUMNS
      {| columns := REQUIRED_COLUMNS; rows := sample_raw |}
  ∧ detect_disagreements (λ s, s)
      (filter_by_confidence sample_raw CONF_THRESHOLD) ≠ []
  ∧ ∃ entries,
      log_file (main (sample_read_csv sample_raw) (λ s, s) sample_world).2
        = log_file sample_world ++ entries
      ∧ entries
        = (Message <$> progress_before sample_raw)
          ++ Message "Disagreed samples:"
             :: (RecordDump <$>
                   detect_disagreements (λ s, s)
                     (filter_by_confidence sample_raw CONF_THRESHOLD))
          ++ (Message <$>
                if bool_decide (FILE_OUT ∈ unwritable sample_world)
                then take 2 (progress_after sample_raw)
                else progress_after sample_raw)
      ∧ dumped_records entries
        = detect_disagreements (λ s, s)
            (filter_by_confidence sample_raw CONF_THRESHOLD)
      ∧ Message "Disagreed samples: 0" ∉ entries.
Proof.
  assert (files sample_world !! FILE_RAW = Some "csv") as Hfile
    by (vm_compute; reflexivity).
  assert (sample_read_csv sample_raw "csv"
          = Some {| columns := REQUIRED_COLUMNS; rows := sample_raw |})
    as Hparse by reflexivity.
  assert (has_columns REQUIRED_COLUMNS
            {| columns := REQUIRED_COLUMNS; rows := sample_raw |}) as Hcols.
  { apply (bool_decide_unpack _). vm_compute. exact I. }
  assert (detect_disagreements (λ s, s)
            (filter_by_confidence sample_raw CONF_THRESHOLD) ≠ []) as Hsome
    by (vm_compute; discriminate).
  split; [exact Hfile|]. split; [exact Hparse|]. split; [exact Hcols|].
  split; [exact Hsome|].
  exact (main_reports_disagreements (sample_read_csv sample_raw) (λ s, s)
           sample_world "csv" _ Hfile Hparse Hcols Hsome).
Defined.

(** X5 — what a run leaves alone.  At whatever stage it stops, a run
    changes no file other than the export file, only appends to the log
    file and to the console, and every message it writes to the console it
    also writes, in the same order, to the log file. *)
Theorem main_frame (read_csv : string → option Table)
    (set_order : PySet → list string) (w : World) :
  (∀ q, q ≠ FILE_OUT →
        files (main read_csv set_order w).2 !! q = files w !! q)
  ∧ unwritable (main read_csv set_order w).2 = unwritable w
  ∧ ∃ new_log new_console,
      log_file (main read_csv set_order w).2 = log_file w ++ new_log
      ∧ console_stream (main read_csv set_order w).2
        = console_stream w ++ new_console
      ∧ Message <$> new_console `sublist_of` new_log.
Proof.
  rewrite main_spec. cbn [snd].
  split; [intros q Hq; by apply files_world_at|]. split; [done|].
  eexists _, _. split; [reflexivity|]. split; [reflexivity|].
  apply log_at_console.
Qed.

(** X15 — a second run.  Whatever the world, and whatever the orders in
    which the two runs enumerate sets, a run started in the world that a
    first run left stops with the outcome of the first, raised or
    completed, and leaves every file as the first left it. *)
Theorem main_rerun (read_csv : string → option Table)
    (order1 order2 : PySet → list string) (w : World) :
  (main read_csv order2 (main read_csv order1 w).2).1
  = (main read_csv order1 w).1
  ∧ files (main read_csv order2 (main read_csv order1 w).2).2
    = files (main read_csv order1 w).2.
Proof.
  rewrite (main_spec read_csv order1 w). cbn [fst snd].
  rewrite main_spec.
  rewrite (files_world_at order1 _ _ w FILE_RAW)
    by (intros Heq; by apply FILE_RAW_OUT).
  rewrite (run_stage_world _ (world_at order1 _ _ w) w) by done.
  cbn [fst snd]. split; [done|].
  unfold world_at. cbn [files].
  destruct (run_stage _ w); try done. by rewrite insert_insert_eq.
Qed.

(** X16 — a destination that cannot be opened.  In a run whose input
    loads with the columns of the data model but whose destination cannot
    be opened, [main] raises at the export: no file is written, the report
    of the analyzer is in the log, and the last message on the console and
    in the log is "Exporting JSONL…", not "Done.". *)
Theorem main_export_failure (read_csv : string → option Table)
    (set_order : PySet → list string) (w : World)
    (bytes : string) (df_raw : Table) :
  files w !! FILE_RAW = Some bytes →
  read_csv bytes = Some df_raw →
  has_columns REQUIRED_COLUMNS df_raw →
  FILE_OUT ∈ unwritable w →
  (main read_csv set_order w).1 = None
  ∧ files (main read_csv set_order w).2 = files w
  ∧ log_file (main read_csv set_order w).2
    = log_file w
      ++ (Message <$> progress_before (rows df_raw))
      ++ report_entries
           (detect_disagreements set_order
              (filter_by_confidence (rows df_raw) CONF_THRESHOLD))
      ++ [ Message
             ("Agreed samples: "
                +:+ str (len (extract_agreed
                                (filter_by_confidence (rows df_raw)
                                   CONF_THRESHOLD))));
           Message "Exporting JSONL…" ]
  ∧ console_stream (main read_csv set_order w).2
    = console_stream w
      ++ progress_before (rows df_raw)
      ++ [ "Agreed samples: "
             +:+ str (len (extract_agreed
                             (filter_by_confidence (rows df_raw)
                                CONF_THRESHOLD)));
           "Exporting JSONL…" ].
Proof.
  intros Hfile Hparse Hcols Hw.
  pose proof (analysable_full df_raw Hcols) as Ha.
  assert ("confidence_score" ∈ columns df_raw) as Hc
    by by apply has_columns_required in Hcols as (_ & _ & _ & ?).
  rewrite main_spec, Hfile. simpl mbind. rewrite Hparse.
  unfold run_stage.
  rewrite (bool_decide_eq_true_2 _ Hc), (bool_decide_eq_true_2 _ Ha),
    (bool_decide_eq_true_2 _ Hw).
  done.
Qed.

Lemma main_export_failure_witness :
  files sample_world_blocked !! FILE_RAW = Some "csv"
  ∧ sample_read_csv sample_raw "csv"
    = Some {| columns := REQUIRED_COLUMNS; rows := sample_raw |}
  ∧ has_columns REQUIRED_COLUMNS
      {| columns := REQUIRED_COLUMNS; rows := sample_raw |}
  ∧ FILE_OUT ∈ unwritable sample_world_blocked
  ∧ (main (sample_read_csv sample_raw) (λ s, s) sample_world_blocked).1
    = None
  ∧ files (main (sample_read_csv sample_raw) (λ s, s)
             sample_world_blocked).2
    = files sample_world_blocked
  ∧ log_file (main (sample_read_csv sample_raw) (λ s, s)
                sample_world_blocked).2
    = log_file sample_world_blocked
      ++ (Message <$> progress_before sample_raw)
      ++ report_entries
           (detect_disagreements (λ s, s)
              (filter_by_confidence sample_raw CONF_THRESHOLD))
      ++ [ Message
             ("Agreed samples: "
                +:+ str (len (extract_agreed
                                (filter_by_confidence sample_raw
                                   CONF_THRESHOLD))));
           Message "Exporting JSONL…" ]
  ∧ console_stream (main (sample_read_csv sample_raw) (λ s, s)
                      sample_world_blocked).2
    = console_stream sample_world_blocked
      ++ progress_before sample_raw
      ++ [ "Agreed samples: "
             +:+ str (len (extract_agreed
                             (filter_by_confidence sample_raw
                                CONF_THRESHOLD)));
           "Exporting JSONL…" ].
Proof.
  assert (files sample_world_blocked !! FILE_RAW = Some "csv") as Hfile
    by (vm_compute; reflexivity).
  assert (sample_read_csv sample_raw "csv"
          = Some {| columns := REQUIRED_COLUMNS; rows := sample_raw |})
    as Hparse by reflexivity.
  assert (has_columns REQUIRED_COLUMNS
            {| columns := REQUIRED_COLUMNS; rows := sample_raw |}) as Hcols.
  { apply (bool_decide_unpack _). vm_compute. exact I. }
  assert (FILE_OUT ∈ unwritable sample_world_blocked) as Hw.
  { apply (bool_decide_unpack _). vm_compute. exact I. }
  split; [exact Hfile|]. split; [exact Hparse|]. split; [exact Hcols|].
  split; [exact Hw|].
  exact (main_export_failure (sample_read_csv sample_raw) (λ s, s)
           sample_world_blocked "csv" _ Hfile Hparse Hcols Hw).
Defined.

(** ** The analyzer and the extractor *)

(** X6 — every distinct text is counted once.  The number of agreed pairs
    plus the number of disagreement records is the number of distinct
    texts of the table. *)
Theorem agreed_disagreed_count (set_order : PySet → list string)
    (df : DataFrame) :
  len (extract_agreed df) + len (detect_disagreements set_order df)
  = len (drop_duplicates (text <$> df)).
Proof.
  unfold len.
  rewrite <- (length_fmap fst (extract_agreed df)).
  rewrite <- (length_fmap rec_text (detect_disagreements set_order df)).
  rewrite rec_text_detect_disagreements, fst_extract_agreed_Permutation.
  rewrite length_agreed_disagreed_keys. unfold group_keys.
  by rewrite merge_sort_Permutation.
Qed.

(** X7 — shape of a disagreement record.  Let [list(s)] enumerate each
    member of a set once.  Then every record returned by
    [detect_disagreements] names a text of the table, lists at least two
    labels without repetition, lists one annotator and one score per row of
    the text, and has at least as many rows as labels. *)
Theorem detect_disagreements_shape (set_order : PySet → list string)
    (df : DataFrame) :
  (∀ s, set_order s ≡ₚ s) →
  Forall (λ rec,
      rec_text rec ∈ text <$> df
      ∧ (2 ≤ length (rec_labels rec))%nat
      ∧ NoDup (rec_labels rec)
      ∧ (length (rec_labels rec) ≤ length (rec_annotators rec))%nat
      ∧ length (rec_annotators rec) = length (rec_confidence_scores rec)
      ∧ length (rec_annotators rec) = length (rows_of_text df (rec_text rec)))
    (detect_disagreements set_order df).
Proof.
  intros Hperm. rewrite detect_disagreements_unfold.
  apply Forall_fmap, Forall_forall. intros t Ht. simpl.
  pose proof (proj1 (elem_of_disagreed_keys df t) Ht) as Hd.
  rewrite !length_fmap, Hperm.
  split.
  { destruct Hd as (l & _ & (r & Hr & <- & _) & _).
    apply list_elem_of_fmap. by exists r. }
  split; [by apply group_labels_disagreed|].
  split; [apply NoDup_group_labels|]. split; [|done].
  unfold group_labels, set_.
  etransitivity; [apply sublist_length, drop_duplicates_sublist|].
  by rewrite length_fmap.
Qed.

Lemma detect_disagreements_shape_witness :
  (∀ s : PySet, (λ s : PySet, s) s ≡ₚ s)
  ∧ Forall (λ rec,
        rec_text rec ∈ text <$> sample_raw
        ∧ (2 ≤ length (rec_labels rec))%nat
        ∧ NoDup (rec_labels rec)
        ∧ (length (rec_labels rec) ≤ length (rec_annotators rec))%nat
        ∧ length (rec_annotators rec) = length (rec_confidence_scores rec)
        ∧ length (rec_annotators rec)
          = length (rows_of_text sample_raw (rec_text rec)))
      (detect_disagreements (λ s, s) sample_raw).
Proof.
  assert (∀ s : PySet, (λ s : PySet, s) s ≡ₚ s) as Hperm
    by (intros s; reflexivity).
  split; [exact Hperm|].
  exact (detect_disagreements_shape (λ s, s) sample_raw Hperm).
Defined.

(** X8 — reported scores pass the threshold.  Every confidence score
    listed in a record of a filtered table is [>=] the threshold of the
    filter; in particular none is NaN. *)
Theorem detect_disagreements_scores_pass (set_order : PySet → list string)
    (raw : DataFrame) (tau : spec_float) :
  Forall (λ rec,
      Forall (λ s, float_ge s tau = true ∧ is_nan s = false)
        (rec_confidence_scores rec))
    (detect_disagreements set_order (filter_by_confidence raw tau)).
Proof.
  rewrite detect_disagreements_unfold.
  apply Forall_fmap, Forall_forall. intros t _. simpl.
  apply Forall_fmap, Forall_forall. intros r Hr. simpl.
  apply elem_of_rows_of_text in Hr as [Hr _].
  apply elem_of_filter_by_confidence in Hr as [_ Hge].
  split; [done|]. destruct (confidence_score r); try done.
  by rewrite float_ge_nan_l in Hge.
Qed.

(** X9 — row order does not change the classification.  For two tables
    with the same rows in different orders, the records name the same texts
    in the same order (whatever the enumeration order of sets), the same
    texts are disagreed, and the agreed pairs are the same up to order. *)
Theorem analysis_row_order (order1 order2 : PySet → list string)
    (df df' : DataFrame) :
  df ≡ₚ df' →
  rec_text <$> detect_disagreements order1 df
  = rec_text <$> detect_disagreements order2 df'
  ∧ (∀ t, disagreed_text df t ↔ disagreed_text df' t)
  ∧ extract_agreed df ≡ₚ extract_agreed df'.
Proof.
  intros Hp. split; [|split].
  - rewrite !rec_text_detect_disagreements.
    apply StronglySorted_str_lt_unique; try apply disagreed_keys_sorted.
    intros t. rewrite !elem_of_disagreed_keys.
    by apply disagreed_text_Permutation.
  - intros t. by apply disagreed_text_Permutation.
  - apply NoDup_Permutation.
    + rewrite extract_agreed_unfold. apply NoDup_drop_duplicates.
    + rewrite extract_agreed_unfold. apply NoDup_drop_duplicates.
    + intros [t l]. rewrite !elem_of_extract_agreed.
      by rewrite (agreed_text_Permutation df df' t Hp),
        (has_label_Permutation df df' t l Hp).
Qed.

Lemma analysis_row_order_witness :
  sample_raw ≡ₚ reverse sample_raw
  ∧ rec_text <$> detect_disagreements (λ s, s) sample_raw
    = rec_text <$> detect_disagreements reverse (reverse sample_raw)
  ∧ (∀ t, disagreed_text sample_raw t
          ↔ disagreed_text (reverse sample_raw) t)
  ∧ extract_agreed sample_raw ≡ₚ extract_agreed (reverse sample_raw).
Proof.
  assert (sample_raw ≡ₚ reverse sample_raw) as Hp
    by (symmetry; apply reverse_Permutation).
  split; [exact Hp|].
  exact (analysis_row_order (λ s, s) reverse sample_raw
           (reverse sample_raw) Hp).
Defined.

(** X10 — one annotator per text.  When no text occurs in two rows, there
    is nothing to compare: the analyzer returns no record and the extractor
    returns the [(text, label)] pair of every row, in row order. *)
Theorem single_annotation_passes (set_order : PySet → list string)
    (df : DataFrame) :
  NoDup (text <$> df) →
  detect_disagreements set_order df = []
  ∧ extract_agreed df = (λ r, (text r, label r)) <$> df.
Proof.
  intros Hnd. split.
  - apply (fmap_nil_inv rec_text).
    rewrite rec_text_detect_disagreements. apply no_members_nil.
    intros t Ht%elem_of_disagreed_keys.
    pose proof Ht as (l & _ & (r & Hr & <- & _) & _).
    by apply (agreed_not_disagreed df (text r)),
      Ht; apply agreed_text_unique_row.
  - rewrite extract_agreed_unfold.
    rewrite (boolean_mask_all (λ r, bool_decide (text r ∈ agreed_keys df))).
    + apply drop_duplicates_NoDup.
      apply (NoDup_fmap_1 fst). by rewrite <- list_fmap_compose.
    + intros r Hr. apply bool_decide_eq_true, elem_of_agreed_keys.
      by apply agreed_text_unique_row.
Qed.

Lemma single_annotation_passes_witness :
  NoDup (text <$> sample_single)
  ∧ detect_disagreements (λ s, s) sample_single = []
  ∧ extract_agreed sample_single
    = (λ r, (text r, label r)) <$> sample_single.
Proof.
  assert (NoDup (text <$> sample_single)) as Hnd.
  { apply (bool_decide_unpack _). vm_compute. exact I. }
  split; [exact Hnd|].
  exact (single_annotation_passes (λ s, s) sample_single Hnd).
Defined.

(** X11 — order of the agreed pairs.  The texts of the pairs returned by
    [extract_agreed] are exactly the agreed texts, each once, in the order
    in which the texts first occur in the table (not sorted, unlike the
    records of the analyzer). *)
Theorem extract_agreed_first_occurrence (df : DataFrame) :
  selection (agreed_text df) (drop_duplicates (text <$> df))
    (extract_agreed df).*1.
Proof.
  rewrite fst_extract_agreed_mask.
  eapply selection_iff;
    [|apply (boolean_mask_selection
               (λ t, bool_decide (t ∈ agreed_keys df)))].
  intros t. simpl. by rewrite bool_decide_eq_true, elem_of_agreed_keys.
Qed.

(** ** The exporter *)

(** X12 — the export can be read back.  After an export to a destination
    that can be opened, reading the file line by line, each line as a JSON
    object with the members [text] and [label], gives back the exported
    pairs, in order; so two such exports that leave the same file content
    were given the same sequence of pairs. *)
Theorem export_jsonl_round_trip (df : list (string * string))
    (path : string) (w : World) :
  path ∉ unwritable w →
  files (export_jsonl df path w).2 !! path ≫= read_jsonl = Some df
  ∧ ∀ df' path' w',
      path' ∉ unwritable w' →
      files (export_jsonl df' path' w').2 !! path'
      = files (export_jsonl df path w).2 !! path →
      df' = df.
Proof.
  intros Hw. rewrite export_jsonl_run by done. unfold with_file.
  cbn [snd files]. rewrite lookup_insert_eq. split.
  - simpl. apply read_jsonl_jsonl.
  - intros df' path' w' Hw'. rewrite export_jsonl_run by done.
    unfold with_file. cbn [snd files].
    rewrite lookup_insert_eq. intros [= Heq]. apply (inj Some).
    by rewrite <- (read_jsonl_jsonl df), <- (read_jsonl_jsonl df'), Heq.
Qed.

Lemma export_jsonl_round_trip_witness :
  (FILE_OUT ∉ unwritable sample_world)
  ∧ files (export_jsonl [("hi", "greet"); ("ciao", "saluto")] FILE_OUT
             sample_world).2 !! FILE_OUT ≫= read_jsonl
    = Some [("hi", "greet"); ("ciao", "saluto")]
  ∧ ∀ df' path' w',
      path' ∉ unwritable w' →
      files (export_jsonl df' path' w').2 !! path'
      = files (export_jsonl [("hi", "greet"); ("ciao", "saluto")] FILE_OUT
                 sample_world).2 !! FILE_OUT →
      df' = [("hi", "greet"); ("ciao", "saluto")].
Proof.
  assert (FILE_OUT ∉ unwritable sample_world) as Hw.
  { apply (bool_decide_unpack _). vm_compute. exact I. }
  split; [exact Hw|].
  exact (export_jsonl_round_trip [("hi", "greet"); ("ciao", "saluto")]
           FILE_OUT sample_world Hw).
Defined.

(** X13 — no control characters in exported lines.  After an export to a
    destination that can be opened, no line of the file holds a character
    below U+0020: carriage returns, tabs and the like in a text or label
    are written as escapes, so the only control characters of the file are
    the line feeds that end its lines. *)
Theorem export_jsonl_no_control (df : list (string * string))
    (path : string) (w : World) :
  path ∉ unwritable w →
  ∃ content,
    files (export_jsonl df path w).2 !! path = Some content
    ∧ Forall (λ line, no_control line = true) (lines content).
Proof.
  intros Hw. exists (jsonl df). rewrite export_jsonl_run by done.
  unfold with_file. cbn [snd files].
  split; [apply lookup_insert_eq|]. rewrite lines_jsonl.
  apply Forall_fmap, Forall_forall. intros [t l] _.
  apply no_control_json_dumps.
Qed.

Lemma export_jsonl_no_control_witness :
  (FILE_OUT ∉ unwritable sample_world)
  ∧ ∃ content,
      files (export_jsonl [(String (chr 9) "tab", "greet")] FILE_OUT
               sample_world).2 !! FILE_OUT = Some content
      ∧ Forall (λ line, no_control line = true) (lines content).
Proof.
  assert (FILE_OUT ∉ unwritable sample_world) as Hw.
  { apply (bool_decide_unpack _). vm_compute. exact I. }
  split; [exact Hw|].
  exact (export_jsonl_no_control [(String (chr 9) "tab", "greet")] FILE_OUT
           sample_world Hw).
Defined.

(** ** The run, end to end *)

(** X14 — what a completed run exports.  In a run whose input loads with
    the columns of the data model and whose destination can be opened, the
    export file reads back as a sequence of pairs in which no text occurs
    twice, and [(t, l)] is among them exactly when some raw row of text [t]
    with a score [>=] the threshold carries the label [l] and every such
    row of [t] carries [l]. *)
Theorem main_export_sound (read_csv : string → option Table)
    (set_order : PySet → list string) (w : World)
    (bytes : string) (df_raw : Table) :
  files w !! FILE_RAW = Some bytes →
  read_csv bytes = Some df_raw →
  has_columns REQUIRED_COLUMNS df_raw →
  FILE_OUT ∉ unwritable w →
  ∃ pairs,
    files (main read_csv set_order w).2 !! FILE_OUT ≫= read_jsonl
    = Some pairs
    ∧ NoDup pairs.*1
    ∧ ∀ t l,
        (t, l) ∈ pairs
        ↔ (∃ r, r ∈ rows df_raw
                ∧ float_ge (confidence_score r) CONF_THRESHOLD = true
                ∧ text r = t ∧ label r = l)
          ∧ (∀ r, r ∈ rows df_raw →
                  float_ge (confidence_score r) CONF_THRESHOLD = true →
                  text r = t → label r = l).
Proof.
  intros Hfile Hparse Hcols Hw.
  pose proof (analysable_full df_raw Hcols) as Ha.
  assert ("confidence_score" ∈ columns df_raw) as Hc
    by by apply has_columns_required in Hcols as (_ & _ & _ & ?).
  rewrite (main_completes read_csv set_order w bytes df_raw) by done.
  cbn [snd]. unfold world_at. cbn [files].
  rewrite lookup_insert_eq. simpl.
  exists (extract_agreed (filter_by_confidence (rows df_raw) CONF_THRESHOLD)).
  split; [apply read_jsonl_jsonl|].
  split; [apply NoDup_fst_extract_agreed|].
  intros t l. rewrite elem_of_extract_agreed. split.
  - intros [(l0 & _ & Huniq) Hl]. split.
    + destruct Hl as (r & Hr & Ht & Hlab).
      apply elem_of_filter_by_confidence in Hr as [Hr Hge]. by exists r.
    + intros r Hr Hge Ht. rewrite (Huniq l Hl). apply Huniq.
      exists r. split; [|done]. by apply elem_of_filter_by_confidence.
  - intros [(r & Hr & Hge & Ht & Hlab) Hall].
    assert (has_label (filter_by_confidence (rows df_raw) CONF_THRESHOLD)
              t l) as Hl.
    { exists r. split; [|done]. by apply elem_of_filter_by_confidence. }
    split; [|done]. exists l. split; [done|].
    intros l' (r' & Hr' & Ht' & Hl').
    apply elem_of_filter_by_confidence in Hr' as [Hr' Hge'].
    rewrite <- Hl'. by apply Hall.
Qed.

Lemma main_export_sound_witness :
  files sample_world !! FILE_RAW = Some "csv"
  ∧ sample_read_csv sample_raw "csv"
    = Some {| columns := REQUIRED_COLUMNS; rows := sample_raw |}
  ∧ has_columns REQUIRED_COLUMNS
      {| columns := REQUIRED_COLUMNS; rows := sample_raw |}
  ∧ (FILE_OUT ∉ unwritable sample_world)
  ∧ ∃ pairs,
      files (main (sample_read_csv sample_raw) (λ s, s) sample_world).2
        !! FILE_OUT ≫= read_jsonl
      = Some pairs
      ∧ NoDup pairs.*1
      ∧ ∀ t l,
          (t, l) ∈ pairs
          ↔ (∃ r, r ∈ sample_raw
                  ∧ float_ge (confidence_score r) CONF_THRESHOLD = true
                  ∧ text r = t ∧ label r = l)
            ∧ (∀ r, r ∈ sample_raw →
                    float_ge (confidence_score r) CONF_THRESHOLD = true →
                    text r = t → label r = l).
Proof.
  assert (files sample_world !! FILE_RAW = Some "csv") as Hfile
    by (vm_compute; reflexivity).
  assert (sample_read_csv sample_raw "csv"
          = Some {| columns := REQUIRED_COLUMNS; rows := sample_raw |})
    as Hparse by reflexivity.
  assert (has_columns REQUIRED_COLUMNS
            {| columns := REQUIRED_COLUMNS; rows := sample_raw |}) as Hcols.
  { apply (bool_decide_unpack _). vm_compute. exact I. }
  assert (FILE_OUT ∉ unwritable sample_world) as Hw.
  { apply (bool_decide_unpack _). vm_compute. exact I. }
  split; [exact Hfile|]. split; [exact Hparse|]. split; [exact Hcols|].
  split; [exact Hw|].
  exact (main_export_sound (sample_read_csv sample_raw) (λ s, s)
           sample_world "csv" _ Hfile Hparse Hcols Hw).
Defined.
